(** * og.layer.Vector: the vector layer's entity index and deferred scheduler

    A shallow embedding of [src/og/layer/vector.js].  JavaScript objects
    live in stores (lists indexed by reference); a reference that is outside
    its store reads as [undefined].  Methods are written in a small state
    and exception monad over the whole store, so that aliasing between the
    layer, its entities and the tree nodes is kept.

    Numbers: coordinates are finite JavaScript numbers, which the layer only
    copies and compares; they are modelled as rationals ([Q]) and compared
    with the order of [Q].  Counters, indices and zoom levels hold integers
    and are modelled in [Z]. *)

From Stdlib Require Import ZArith QArith Lia Lqa.
From stdpp Require Import base list option relations.

Set Default Proof Using "Type".

(** ** JavaScript number comparisons *)

Definition js_gt (a b : Q) : bool := negb (Qle_bool a b).
Definition js_lt (a b : Q) : bool := negb (Qle_bool b a).

(** ** Data model *)

Abbreviation eref := nat (only parsing).   (* reference to an og.Entity *)
Abbreviation nref := nat (only parsing).   (* reference to a quad tree node *)
Abbreviation cref := nat (only parsing).   (* reference to an og.EntityCollection *)

Record LonLat := mkLonLat { lon : Q; lat : Q; height : Q }.

(** [new og.LonLat(lon, lat)] *)
Definition LonLat_new (lo la : Q) : LonLat := mkLonLat lo la 0.

Record Extent := mkExtent { southWest : LonLat; northEast : LonLat }.

(** [og.Extent.createFromArray([w, s, e, n])] *)
Definition Extent_createFromArray (w s e n : Q) : Extent :=
  mkExtent (LonLat_new w s) (LonLat_new e n).

Record Vec3 := mkVec3 { x : Q; y : Q; z : Q }.

(** The fields of og.Entity that the layer reads or writes.  [lineString]
    is the truthiness of the property of that name. *)
Record Entity := mkEntity {
  id : nat;
  lineString : bool;
  _lonlat : option LonLat;
  _cartesian : option Vec3;
  _vectorLayer : option nat;
  _vectorLayerIndex : Z;
  _entityCollection : option cref;
  _nodePtr : option nref
}.

Record EntityCollection := mkEntityCollection {
  ec_entities : list eref;
  ec_pickingEnabled : bool
}.

(** The fields of a quad tree node that the layer reads or writes. *)
Record QuadNode := mkQuadNode {
  nodeId : nat;
  nodeExtent : Extent;
  parentNode : option nref;
  count : Z;
  deferredEntities : list eref;
  entityCollection : option cref;
  _inTheQueue : bool
}.

(** What the layer reads from the planet (its rendering context). *)
Record Planet := mkPlanet {
  maxCurrZoom : Z;
  _visibleNodes : list nat;
  _visibleNodesNorth : list nat;
  _visibleNodesSouth : list nat
}.

(** The layer object: the fields set by the constructor of og.layer.Vector
    and those of the base layer that its methods read ([_id], [_planet],
    [_visibility], [minZoom], [maxZoom]).  No method and no constructor
    gives the object a property named [layer]. *)
Record Vector := mkVector {
  _id : nat;
  _planet : option Planet;
  _visibility : bool;
  minZoom : Z;
  maxZoom : Z;
  _entities : list eref;
  _entityCollectionAlways : cref;
  _entityCollectionsTree : option nref;
  _entityCollectionsTreeNorth : option nref;
  _entityCollectionsTreeSouth : option nref;
  _extent : Extent;
  _renderingNodes : list nat;
  _renderingNodesNorth : list nat;
  _renderingNodesSouth : list nat;
  _secondPASS : list nref;
  _counter : Z;
  _deferredEntitiesPendingQueue : list nref
}.

Inductive EventName := entitymove | draw | entityadd | entityremove.

(** The whole store.  [dispatched] records the events the layer has
    dispatched, oldest first; [timers] holds the callbacks handed to
    [setTimeout] that have not run yet, oldest first, each identified by the
    node it closes over; [counterTrace] is a ghost record of every value
    that was assigned to [_counter], oldest first. *)
Record World := mkWorld {
  ents : list Entity;
  nodes : list QuadNode;
  colls : list EntityCollection;
  this : Vector;
  dispatched : list (EventName * eref);
  timers : list nref;
  counterTrace : list Z
}.

(** ** Field updates *)

Definition set_lonlat (v : option LonLat) (e : Entity) : Entity :=
  mkEntity (id e) (lineString e) v (_cartesian e) (_vectorLayer e)
    (_vectorLayerIndex e) (_entityCollection e) (_nodePtr e).
Definition set_vectorLayer (v : option nat) (e : Entity) : Entity :=
  mkEntity (id e) (lineString e) (_lonlat e) (_cartesian e) v
    (_vectorLayerIndex e) (_entityCollection e) (_nodePtr e).
Definition set_vectorLayerIndex (v : Z) (e : Entity) : Entity :=
  mkEntity (id e) (lineString e) (_lonlat e) (_cartesian e) (_vectorLayer e)
    v (_entityCollection e) (_nodePtr e).
Definition set_entityCollection (v : option cref) (e : Entity) : Entity :=
  mkEntity (id e) (lineString e) (_lonlat e) (_cartesian e) (_vectorLayer e)
    (_vectorLayerIndex e) v (_nodePtr e).
Definition set_nodePtr (v : option nref) (e : Entity) : Entity :=
  mkEntity (id e) (lineString e) (_lonlat e) (_cartesian e) (_vectorLayer e)
    (_vectorLayerIndex e) (_entityCollection e) v.

Definition node_set_count (v : Z) (q : QuadNode) : QuadNode :=
  mkQuadNode (nodeId q) (nodeExtent q) (parentNode q) v (deferredEntities q)
    (entityCollection q) (_inTheQueue q).
Definition node_set_deferredEntities (v : list eref) (q : QuadNode) : QuadNode :=
  mkQuadNode (nodeId q) (nodeExtent q) (parentNode q) (count q) v
    (entityCollection q) (_inTheQueue q).
Definition node_set_entityCollection (v : option cref) (q : QuadNode) : QuadNode :=
  mkQuadNode (nodeId q) (nodeExtent q) (parentNode q) (count q)
    (deferredEntities q) v (_inTheQueue q).
Definition node_set_inTheQueue (v : bool) (q : QuadNode) : QuadNode :=
  mkQuadNode (nodeId q) (nodeExtent q) (parentNode q) (count q)
    (deferredEntities q) (entityCollection q) v.

Definition set_entities (v : list eref) (l : Vector) : Vector :=
  mkVector (_id l) (_planet l) (_visibility l) (minZoom l) (maxZoom l) v
    (_entityCollectionAlways l) (_entityCollectionsTree l)
    (_entityCollectionsTreeNorth l) (_entityCollectionsTreeSouth l)
    (_extent l) (_renderingNodes l) (_renderingNodesNorth l)
    (_renderingNodesSouth l) (_secondPASS l) (_counter l)
    (_deferredEntitiesPendingQueue l).
Definition set_trees (t tn ts : option nref) (l : Vector) : Vector :=
  mkVector (_id l) (_planet l) (_visibility l) (minZoom l) (maxZoom l)
    (_entities l) (_entityCollectionAlways l) t tn ts
    (_extent l) (_renderingNodes l) (_renderingNodesNorth l)
    (_renderingNodesSouth l) (_secondPASS l) (_counter l)
    (_deferredEntitiesPendingQueue l).
Definition set_extent (v : Extent) (l : Vector) : Vector :=
  mkVector (_id l) (_planet l) (_visibility l) (minZoom l) (maxZoom l)
    (_entities l) (_entityCollectionAlways l) (_entityCollectionsTree l)
    (_entityCollectionsTreeNorth l) (_entityCollectionsTreeSouth l)
    v (_renderingNodes l) (_renderingNodesNorth l)
    (_renderingNodesSouth l) (_secondPASS l) (_counter l)
    (_deferredEntitiesPendingQueue l).
Definition set_renderingNodes (a b c : list nat) (l : Vector) : Vector :=
  mkVector (_id l) (_planet l) (_visibility l) (minZoom l) (maxZoom l)
    (_entities l) (_entityCollectionAlways l) (_entityCollectionsTree l)
    (_entityCollectionsTreeNorth l) (_entityCollectionsTreeSouth l)
    (_extent l) a b c (_secondPASS l) (_counter l)
    (_deferredEntitiesPendingQueue l).
Definition set_secondPASS (v : list nref) (l : Vector) : Vector :=
  mkVector (_id l) (_planet l) (_visibility l) (minZoom l) (maxZoom l)
    (_entities l) (_entityCollectionAlways l) (_entityCollectionsTree l)
    (_entityCollectionsTreeNorth l) (_entityCollectionsTreeSouth l)
    (_extent l) (_renderingNodes l) (_renderingNodesNorth l)
    (_renderingNodesSouth l) v (_counter l)
    (_deferredEntitiesPendingQueue l).
Definition set_counter (v : Z) (l : Vector) : Vector :=
  mkVector (_id l) (_planet l) (_visibility l) (minZoom l) (maxZoom l)
    (_entities l) (_entityCollectionAlways l) (_entityCollectionsTree l)
    (_entityCollectionsTreeNorth l) (_entityCollectionsTreeSouth l)
    (_extent l) (_renderingNodes l) (_renderingNodesNorth l)
    (_renderingNodesSouth l) (_secondPASS l) v
    (_deferredEntitiesPendingQueue l).
Definition set_pendingQueue (v : list nref) (l : Vector) : Vector :=
  mkVector (_id l) (_planet l) (_visibility l) (minZoom l) (maxZoom l)
    (_entities l) (_entityCollectionAlways l) (_entityCollectionsTree l)
    (_entityCollectionsTreeNorth l) (_entityCollectionsTreeSouth l)
    (_extent l) (_renderingNodes l) (_renderingNodesNorth l)
    (_renderingNodesSouth l) (_secondPASS l) (_counter l) v.

Definition with_ents (v : list Entity) (w : World) : World :=
  mkWorld v (nodes w) (colls w) (this w) (dispatched w) (timers w)
    (counterTrace w).
Definition with_nodes (v : list QuadNode) (w : World) : World :=
  mkWorld (ents w) v (colls w) (this w) (dispatched w) (timers w)
    (counterTrace w).
Definition with_colls (v : list EntityCollection) (w : World) : World :=
  mkWorld (ents w) (nodes w) v (this w) (dispatched w) (timers w)
    (counterTrace w).
Definition with_this (v : Vector) (w : World) : World :=
  mkWorld (ents w) (nodes w) (colls w) v (dispatched w) (timers w)
    (counterTrace w).
Definition with_dispatched (v : list (EventName * eref)) (w : World) : World :=
  mkWorld (ents w) (nodes w) (colls w) (this w) v (timers w)
    (counterTrace w).
Definition with_timers (v : list nref) (w : World) : World :=
  mkWorld (ents w) (nodes w) (colls w) (this w) (dispatched w) v
    (counterTrace w).
Definition with_counterTrace (v : list Z) (w : World) : World :=
  mkWorld (ents w) (nodes w) (colls w) (this w) (dispatched w) (timers w) v.

(** ** The monad of methods *)

Inductive JsError := TypeError.

(** A call returns normally, or throws (the writes made before the throw
    stay), or does not return. *)
Inductive outcome (A : Type) : Type :=
  | Done (a : A) (w : World)
  | Raise (e : JsError) (w : World)
  | Diverge.
Arguments Done {A} a w.
Arguments Raise {A} e w.
Arguments Diverge {A}.

Definition M (A : Type) : Type := World -> outcome A.

Definition ret {A} (a : A) : M A := fun w => Done a w.
Definition bind {A B} (m : M A) (k : A -> M B) : M B :=
  fun w => match m w with
           | Done a w' => k a w'
           | Raise e w' => Raise e w'
           | Diverge => Diverge
           end.
Definition throw {A} (e : JsError) : M A := fun w => Raise e w.
Definition diverge {A} : M A := fun _ => Diverge.
Definition get : M World := fun w => Done w w.
Definition modify (f : World -> World) : M unit := fun w => Done tt (f w).

Notation "x <- m ;; k" := (bind m (fun x => k))
  (at level 100, m at next level, right associativity).
Notation "m ;;; k" := (bind m (fun _ => k))
  (at level 100, right associativity).

(** The state a call leaves behind, whatever its outcome; [w] if it does
    not return. *)
Definition state_after {A} (o : outcome A) (w : World) : World :=
  match o with Done _ w' => w' | Raise _ w' => w' | Diverge => w end.

(** Reading a property of the object behind a reference; of [undefined]
    that is a TypeError. *)
Definition getEntity (r : eref) : M Entity :=
  fun w => match ents w !! r with
           | Some e => Done e w
           | None => Raise TypeError w
           end.
Definition getNode (n : nref) : M QuadNode :=
  fun w => match nodes w !! n with
           | Some q => Done q w
           | None => Raise TypeError w
           end.
Definition getColl (c : cref) : M EntityCollection :=
  fun w => match colls w !! c with
           | Some q => Done q w
           | None => Raise TypeError w
           end.
Definition getThis : M Vector := fun w => Done (this w) w.

(** Writing properties of the object behind a reference. *)
Definition modEntity (r : eref) (f : Entity -> Entity) : M unit :=
  _ <- getEntity r ;; modify (fun w => with_ents (alter f r (ents w)) w).
Definition modNode (n : nref) (f : QuadNode -> QuadNode) : M unit :=
  _ <- getNode n ;; modify (fun w => with_nodes (alter f n (nodes w)) w).
Definition modColl (c : cref) (f : EntityCollection -> EntityCollection) : M unit :=
  _ <- getColl c ;; modify (fun w => with_colls (alter f c (colls w)) w).
Definition modThis (f : Vector -> Vector) : M unit :=
  modify (fun w => with_this (f (this w)) w).

(** [this.events.dispatch(this.events.<name>, entity)] *)
Definition dispatch (ev : EventName) (entity : eref) : M unit :=
  modify (fun w => with_dispatched (dispatched w ++ [(ev, entity)]) w).

(** ** Collaborators

    The quad tree node class, og.mercator and the rendering walk are used by
    the layer but are not part of [vector.js]; the layer's methods are
    parameterised by them.  [insertEntity] and [buildTree] may change any
    part of the store (they call back into the layer).  A rendering walk
    works on the entities, nodes and collections, marks rendering nodes, and
    pushes nodes on [_secondPASS] and collections on the output array; it is
    given by what it leaves and what it pushes.  [isVisible] reads the
    rendering state only. *)

Record Scene := mkScene {
  scene_planet : option Planet;
  scene_renderingNodes : list nat;
  scene_renderingNodesNorth : list nat;
  scene_renderingNodesSouth : list nat
}.

Definition scene_of (l : Vector) : Scene :=
  mkScene (_planet l) (_renderingNodes l) (_renderingNodesNorth l)
    (_renderingNodesSouth l).

Record Walked := mkWalked {
  walked_ents : list Entity;
  walked_nodes : list QuadNode;
  walked_colls : list EntityCollection;
  walked_renderingNodes : list nat;
  walked_renderingNodesNorth : list nat;
  walked_renderingNodesSouth : list nat;
  pushed_secondPASS : list nref;
  pushed_outArr : list cref
}.

Class Collaborators := {
  (* og.mercator.MAX_LAT, og.mercator.MIN_LAT *)
  MAX_LAT : Q;
  MIN_LAT : Q;
  (* node.insertEntity(entity, rightNow) *)
  insertEntity : nref -> eref -> bool -> World -> World;
  (* node.buildTree(entities) *)
  buildTree : nref -> list eref -> World -> World;
  (* node.collectRenderCollections(visibleNodes, outArr) *)
  collectRenderCollections : nref -> list nat -> World -> Walked;
  (* node.collectRenderCollectionsPASS2(visibleNodes, outArr, node.nodeId),
     the third argument being the receiver's own id *)
  collectRenderCollectionsPASS2 : nref -> list nat -> World -> Walked;
  (* node.isVisible() *)
  isVisible : Scene -> nref -> bool
}.

(** Modelled from the spec: og.QueueArray is not in [vector.js]; the backlog
    is scanned last-in-first-out, so [push] and [pop] work on the same end,
    here the head of the list. *)
Definition QueueArray_push (n : nref) (q : list nref) : list nref := n :: q.
Definition QueueArray_pop (q : list nref) : option nref * list nref :=
  match q with
  | [] => (None, [])
  | n :: q' => (Some n, q')
  end.

(** Modelled from the spec: og.EntityCollection is not in [vector.js]; a
    collection is a bucket of entities, each entity holding a back-reference
    to the one collection it belongs to.  [new og.EntityCollection()]. *)
Definition EntityCollection_new : M cref :=
  fun w => Done (length (colls w))
             (with_colls (colls w ++ [mkEntityCollection [] true]) w).

(** Modelled from the spec: [collection.add(entity)] inserts the entity into
    the bucket and sets its back-reference. *)
Definition EntityCollection_add (c : cref) (entity : eref) : M unit :=
  modColl c (fun ec =>
    mkEntityCollection (ec_entities ec ++ [entity]) (ec_pickingEnabled ec)) ;;;
  modEntity entity (set_entityCollection (Some c)).

(** Modelled from the spec: [collection._removeEntitySilent(entity)] removes
    the entity from the bucket, dispatching nothing, and clears the entity's
    back-reference. *)
Definition _removeEntitySilent (c : cref) (entity : eref) : M unit :=
  modColl c (fun ec =>
    mkEntityCollection (filter (fun r => r <> entity) (ec_entities ec))
      (ec_pickingEnabled ec)) ;;;
  modEntity entity (set_entityCollection None).

(** Modelled from the spec: the constructor of a root node (no parent, no
    entity counted, nothing buffered, no collection, not queued); the
    arguments are the node id and the extent. *)
Definition QuadNode_new (nid : nat) (ext : Extent) : M nref :=
  fun w => Done (length (nodes w))
             (with_nodes (nodes w ++ [mkQuadNode nid ext None 0 [] None false]) w).

(** The back-reference to [c] set on every entity of a list. *)
Fixpoint setCollectionOf (c : cref) (rs : list eref) : M unit :=
  match rs with
  | [] => ret tt
  | r :: rs' =>
      modEntity r (set_entityCollection (Some c)) ;;; setCollectionOf c rs'
  end.

(** Modelled from the spec: [node.applyCollection()] builds an entity
    collection from [deferredEntities], clears the buffer and attaches the
    collection to the node; an empty buffer gives an empty collection. *)
Definition applyCollection (node : nref) : M unit :=
  q <- getNode node ;;
  c <- EntityCollection_new ;;
  modColl c (fun ec =>
    mkEntityCollection (deferredEntities q) (ec_pickingEnabled ec)) ;;;
  setCollectionOf c (deferredEntities q) ;;;
  modNode node (fun q' =>
    node_set_entityCollection (Some c) (node_set_deferredEntities [] q')).

(** ** Array helpers *)

(** [array.splice(i, 1)]: a negative start counts from the end. *)
Definition splice1 {A} (i : Z) (l : list A) : list A :=
  let len := Z.of_nat (length l) in
  let start := if (i <? 0)%Z then Z.max (len + i) 0 else Z.min i len in
  delete (Z.to_nat start) l.

Definition truthy {A} (o : option A) : bool :=
  match o with Some _ => true | None => false end.

Definition ext_set_ne_lon (v : Q) (e : Extent) : Extent :=
  mkExtent (southWest e)
    (mkLonLat v (lat (northEast e)) (height (northEast e))).
Definition ext_set_ne_lat (v : Q) (e : Extent) : Extent :=
  mkExtent (southWest e)
    (mkLonLat (lon (northEast e)) v (height (northEast e))).
Definition ext_set_sw_lon (v : Q) (e : Extent) : Extent :=
  mkExtent (mkLonLat v (lat (southWest e)) (height (southWest e)))
    (northEast e).
Definition ext_set_sw_lat (v : Q) (e : Extent) : Extent :=
  mkExtent (mkLonLat (lon (southWest e)) v (height (southWest e)))
    (northEast e).

Definition set_planet (v : option Planet) (l : Vector) : Vector :=
  mkVector (_id l) v (_visibility l) (minZoom l) (maxZoom l)
    (_entities l) (_entityCollectionAlways l) (_entityCollectionsTree l)
    (_entityCollectionsTreeNorth l) (_entityCollectionsTreeSouth l)
    (_extent l) (_renderingNodes l) (_renderingNodesNorth l)
    (_renderingNodesSouth l) (_secondPASS l) (_counter l)
    (_deferredEntitiesPendingQueue l).

(** The extent every rebuild starts from:
    [new og.Extent(new og.LonLat(180, 90), new og.LonLat(-180, -90))]. *)
Definition emptyExtent : Extent :=
  mkExtent (LonLat_new 180 90) (LonLat_new (-180) (-90)).

(** ** The methods of og.layer.Vector *)

Section Methods.
Context `{C : Collaborators}.

(** A call of a tree method on the node behind a root field; on a root that
    is still [null] that is a TypeError. *)
Definition onRoot (root : option nref) (f : nref -> World -> World) : M unit :=
  match root with
  | Some n => modify (f n)
  | None => throw TypeError
  end.

(** The constructor, for the options the methods below depend on:
    [new og.layer.Vector(name, {entities, minZoom, maxZoom, visibility})] in
    a store holding the entities [heap]; the layer gets the identity [lid].
    The planet is not assigned yet, so [_buildEntityCollectionsTree] only
    sets the extent. *)
Definition Vector_new (lid : nat) (heap : list Entity) (entities : list eref)
    (minZ maxZ : Z) (visibility : bool) : World :=
  mkWorld heap [] [mkEntityCollection [] true]
    (mkVector lid None visibility minZ maxZ entities 0%nat None None None
       emptyExtent [] [] [] [] 0 [])
    [] [] [].

Definition getEntities : M (list eref) :=
  l <- getThis ;; ret (_entities l).

Definition _fitExtent (entity : eref) : M unit :=
  e <- getEntity entity ;;
  match _lonlat e with
  | None => throw TypeError
  | Some ll =>
      (l <- getThis ;;
       if js_gt (lon ll) (lon (northEast (_extent l)))
       then modThis (fun l => set_extent (ext_set_ne_lon (lon ll) (_extent l)) l)
       else ret tt) ;;;
      (l <- getThis ;;
       if js_gt (lat ll) (lat (northEast (_extent l)))
       then modThis (fun l => set_extent (ext_set_ne_lat (lat ll) (_extent l)) l)
       else ret tt) ;;;
      (l <- getThis ;;
       if js_lt (lon ll) (lon (southWest (_extent l)))
       then modThis (fun l => set_extent (ext_set_sw_lon (lon ll) (_extent l)) l)
       else ret tt) ;;;
      (l <- getThis ;;
       if js_lt (lat ll) (lat (southWest (_extent l)))
       then modThis (fun l => set_extent (ext_set_sw_lat (lat ll) (_extent l)) l)
       else ret tt)
  end.

(** [add(entity, rightNow)].  In the branch that derives a missing
    [_lonlat], the receiver of [cartesianToLonLat] is reached through
    [this.layer], a property the layer object does not have: the read of
    [_planet] on [undefined] throws before anything is derived. *)
Definition add (entity : eref) (rightNow : bool) : M unit :=
  e <- getEntity entity ;;
  if negb (truthy (_vectorLayer e) || truthy (_entityCollection e)) then
    l <- getThis ;;
    modEntity entity (set_vectorLayer (Some (_id l))) ;;;
    modEntity entity (set_vectorLayerIndex (Z.of_nat (length (_entities l)))) ;;;
    modThis (fun l => set_entities (_entities l ++ [entity]) l) ;;;
    (if lineString e then
       EntityCollection_add (_entityCollectionAlways l) entity
     else if truthy (_planet l) then
       (e1 <- getEntity entity ;;
        if negb (truthy (_lonlat e1)) then throw TypeError else ret tt) ;;;
       _fitExtent entity ;;;
       e2 <- getEntity entity ;;
       l2 <- getThis ;;
       match _lonlat e2 with
       | None => throw TypeError
       | Some ll =>
           if js_gt (lat ll) MAX_LAT then
             onRoot (_entityCollectionsTreeNorth l2)
               (fun n => insertEntity n entity rightNow)
           else if js_lt (lat ll) MIN_LAT then
             onRoot (_entityCollectionsTreeSouth l2)
               (fun n => insertEntity n entity rightNow)
           else
             onRoot (_entityCollectionsTree l2)
               (fun n => insertEntity n entity rightNow)
       end
     else ret tt) ;;;
    dispatch entityadd entity
  else ret tt.

(** [addEntities(entities, rightNow)]: [while (i--) this.add(entities[i])]. *)
Fixpoint addEntities_loop (i : nat) (entities : list eref) (rightNow : bool)
    : M unit :=
  match i with
  | O => ret tt
  | S j =>
      match entities !! j with
      | Some r => add r rightNow
      | None => throw TypeError
      end ;;;
      addEntities_loop j entities rightNow
  end.

Definition addEntities (entities : list eref) (rightNow : bool) : M unit :=
  addEntities_loop (length entities) entities rightNow.

(** [for (i = startIndex; i < e.length; i++) e[i]._vectorLayerIndex = i],
    from the element at [startIndex] on. *)
Fixpoint reindexFrom (i : Z) (rs : list eref) : M unit :=
  match rs with
  | [] => ret tt
  | r :: rs' => modEntity r (set_vectorLayerIndex i) ;;; reindexFrom (i + 1) rs'
  end.

(** A negative [startIndex] is below [e.length], and [e[startIndex]] is
    then [undefined]: the first assignment throws. *)
Definition _reindexEntitiesArray (startIndex : Z) : M unit :=
  l <- getThis ;;
  if (startIndex <? 0)%Z then throw TypeError
  else reindexFrom startIndex (drop (Z.to_nat startIndex) (_entities l)).

(** [while (node) { node.count--; node = node.parentNode; }].  The loop
    visits one node per round; [fuel] bounds the rounds, and a walk that
    outlasts it does not return. *)
Fixpoint decCounts (fuel : nat) (node : option nref) {struct fuel} : M unit :=
  match node with
  | None => ret tt
  | Some n =>
      w <- get ;;
      match nodes w !! n with
      | None => ret tt
      | Some q =>
          match fuel with
          | O => diverge
          | S fuel' =>
              modNode n (node_set_count (count q - 1)) ;;;
              decCounts fuel' (parentNode q)
          end
      end
  end.

(** A parent chain without a cycle has no more nodes than the store; the
    loop is run with that many rounds, so it fails to return only on a
    cycle, where the source loops forever. *)
Definition decAncestors (node : option nref) : M unit :=
  w <- get ;; decCounts (length (nodes w)) node.

(** The scan of the deferred buffer of [n], [while (j--)], that removes the
    element whose id is the entity's and stops. *)
Fixpoint scanDeferred (j : nat) (n : nref) (entity : eref) : M unit :=
  match j with
  | O => ret tt
  | S j' =>
      q <- getNode n ;;
      match deferredEntities q !! j' with
      | None => throw TypeError
      | Some r =>
          d <- getEntity r ;;
          e <- getEntity entity ;;
          if Nat.eqb (id d) (id e) then
            modNode n (fun q =>
              node_set_deferredEntities (delete j' (deferredEntities q)) q) ;;;
            decAncestors (_nodePtr e)
          else scanDeferred j' n entity
      end
  end.

(** [removeEntity(entity)].  [this.isEqual(layer)] of the base layer
    compares the layers' identities. *)
Definition removeEntity (entity : eref) : M unit :=
  e <- getEntity entity ;;
  l <- getThis ;;
  if truthy (_vectorLayer e) && bool_decide (_vectorLayer e = Some (_id l)) then
    modThis (fun l => set_entities (splice1 (_vectorLayerIndex e) (_entities l)) l) ;;;
    _reindexEntitiesArray (_vectorLayerIndex e) ;;;
    modEntity entity (set_vectorLayer None) ;;;
    modEntity entity (set_vectorLayerIndex (-1)) ;;;
    (e1 <- getEntity entity ;;
     match _entityCollection e1 with
     | Some c =>
         _removeEntitySilent c entity ;;;
         e2 <- getEntity entity ;;
         decAncestors (_nodePtr e2) ;;;
         match _nodePtr e2 with
         | Some n =>
             q <- getNode n ;;
             if (count q =? 0)%Z && Nat.eqb (length (deferredEntities q)) 0
             then modNode n (node_set_entityCollection None)
             else ret tt
         | None => ret tt
         end
     | None =>
         match _nodePtr e1 with
         | Some n =>
             q <- getNode n ;;
             if negb (Nat.eqb (length (deferredEntities q)) 0)
             then scanDeferred (length (deferredEntities q)) n entity
             else ret tt
         | None => ret tt
         end
     end) ;;;
    (e3 <- getEntity entity ;;
     if truthy (_nodePtr e3) then modEntity entity (set_nodePtr None)
     else ret tt) ;;;
    dispatch entityremove entity
  else ret tt.

(** [removeEntities(entities)] *)
Fixpoint removeEntities_loop (i : nat) (entities : list eref) : M unit :=
  match i with
  | O => ret tt
  | S j =>
      match entities !! j with
      | Some r => removeEntity r
      | None => throw TypeError
      end ;;;
      removeEntities_loop j entities
  end.

Definition removeEntities (entities : list eref) : M unit :=
  removeEntities_loop (length entities) entities.

(** [clear()]: the body is a TODO comment. *)
Definition clear : M unit := ret tt.

(** The loop of [_buildEntityCollectionsTree] over [this._entities]: line
    entities go to the always-collection, the rest is gathered for the
    trees. *)
Fixpoint gatherTreeEntities (rs : list eref) (entities : list eref)
    : M (list eref) :=
  match rs with
  | [] => ret entities
  | r :: rs' =>
      ei <- getEntity r ;;
      if lineString ei then
        (l <- getThis ;; EntityCollection_add (_entityCollectionAlways l) r) ;;;
        gatherTreeEntities rs' entities
      else gatherTreeEntities rs' (entities ++ [r])
  end.

Definition _buildEntityCollectionsTree : M unit :=
  modThis (set_extent emptyExtent) ;;;
  l <- getThis ;;
  if truthy (_planet l) then
    t <- QuadNode_new 0
           (Extent_createFromArray (-20037508.34) (-20037508.34)
              20037508.34 20037508.34) ;;
    tn <- QuadNode_new 0 (Extent_createFromArray (-180) MAX_LAT 180 90) ;;
    ts <- QuadNode_new 0 (Extent_createFromArray (-180) (-90) 180 MIN_LAT) ;;
    modThis (set_trees (Some t) (Some tn) (Some ts)) ;;;
    l1 <- getThis ;;
    entities <- gatherTreeEntities (_entities l1) [] ;;
    l2 <- getThis ;;
    onRoot (_entityCollectionsTree l2) (fun n => buildTree n entities) ;;;
    l3 <- getThis ;;
    onRoot (_entityCollectionsTreeNorth l3) (fun n => buildTree n entities) ;;;
    l4 <- getThis ;;
    onRoot (_entityCollectionsTreeSouth l4) (fun n => buildTree n entities)
  else ret tt.

(** [addTo(planet)].  [_assignPlanet] belongs to the base layer and the
    attachment of the always-collection to the entity collection class;
    of their effects only the assignment of [_planet] is kept. *)
Definition addTo (planet : Planet) : M unit :=
  modThis (set_planet (Some planet)) ;;;
  _buildEntityCollectionsTree.

(** The loop of [setEntities], [while (i--)], that marks the entities no
    vector layer owns. *)
Fixpoint markEntities (i : nat) (entities : list eref) : M unit :=
  match i with
  | O => ret tt
  | S j =>
      match entities !! j with
      | None => throw TypeError
      | Some r =>
          ei <- getEntity r ;;
          (if negb (truthy (_vectorLayer ei)) then
             l <- getThis ;;
             modEntity r (set_vectorLayer (Some (_id l))) ;;;
             modEntity r (set_vectorLayerIndex (Z.of_nat j))
           else ret tt) ;;;
          markEntities j entities
      end
  end.

Definition setEntities (entities : list eref) : M unit :=
  clear ;;;
  modThis (set_entities entities) ;;;
  markEntities (length entities) entities ;;;
  _buildEntityCollectionsTree.

(** [each(callback)]: the entities in the order the callback sees them. *)
Definition each : M (list eref) :=
  l <- getThis ;; ret (rev (_entities l)).

(** [each(callback)] with the callback run: [e] is the array behind
    [this._entities], which [add] and [removeEntity] change in place, so
    every round reads the array as it is then; [e[i]] past its end is
    [undefined].  A callback that assigns a new array to [this._entities]
    is outside this definition. *)
Fixpoint each_loop (callback : option eref -> M unit) (i : nat) : M unit :=
  match i with
  | O => ret tt
  | S j =>
      l <- getThis ;;
      callback (_entities l !! j) ;;;
      each_loop callback j
  end.

Definition each_with (callback : option eref -> M unit) : M unit :=
  l <- getThis ;; each_loop callback (length (_entities l)).

(** The callback [function (e) { layer.removeEntity(e); }]; on [undefined]
    the read of [entity._vectorLayer] throws. *)
Definition removeEntity_callback (o : option eref) : M unit :=
  match o with
  | Some r => removeEntity r
  | None => throw TypeError
  end.

(** A rendering walk on the current store: the store it leaves and the
    output array with the collections it pushed. *)
Definition walk (f : World -> Walked) (outArr : list cref) : M (list cref) :=
  fun w =>
    let r := f w in
    Done (outArr ++ pushed_outArr r)
      (mkWorld (walked_ents r) (walked_nodes r) (walked_colls r)
         (set_secondPASS (_secondPASS (this w) ++ pushed_secondPASS r)
            (set_renderingNodes (walked_renderingNodes r)
               (walked_renderingNodesNorth r) (walked_renderingNodesSouth r)
               (this w)))
         (dispatched w) (timers w) (counterTrace w)).

(** [i = this._secondPASS.length; while (i--)
       this._secondPASS[i].collectRenderCollectionsPASS2(visibleNodes,
         outArr, this._secondPASS[i].nodeId)] *)
Fixpoint secondPass (i : nat) (visibleNodes : list nat) (outArr : list cref)
    : M (list cref) :=
  match i with
  | O => ret outArr
  | S j =>
      l <- getThis ;;
      match _secondPASS l !! j with
      | None => throw TypeError
      | Some n =>
          outArr' <- walk (collectRenderCollectionsPASS2 n visibleNodes) outArr ;;
          secondPass j visibleNodes outArr'
      end
  end.

(** The two passes over one tree. *)
Definition collectTree (root : Vector -> option nref) (visibleNodes : list nat)
    (outArr : list cref) : M (list cref) :=
  modThis (set_secondPASS []) ;;;
  l <- getThis ;;
  match root l with
  | None => throw TypeError
  | Some n =>
      outArr1 <- walk (collectRenderCollections n visibleNodes) outArr ;;
      l1 <- getThis ;;
      secondPass (length (_secondPASS l1)) visibleNodes outArr1
  end.

(** [_collectVisibleCollections(outArr)]: the array after the call. *)
Definition _collectVisibleCollections (outArr : list cref) : M (list cref) :=
  l <- getThis ;;
  match _planet l with
  | None => throw TypeError
  | Some planet =>
      if (minZoom l <=? maxCurrZoom planet)%Z && (maxZoom l >=? maxCurrZoom planet)%Z
      then
        modThis (set_renderingNodes [] [] []) ;;;
        let outArr0 := outArr ++ [_entityCollectionAlways l] in
        outArr1 <- collectTree _entityCollectionsTree (_visibleNodes planet) outArr0 ;;
        outArr2 <- collectTree _entityCollectionsTreeNorth
                     (_visibleNodesNorth planet) outArr1 ;;
        collectTree _entityCollectionsTreeSouth (_visibleNodesSouth planet) outArr2
      else ret outArr
  end.

(** ** The deferred scheduler *)

(** An assignment to [this._counter]. *)
Definition assignCounter (v : Z) : M unit :=
  modThis (set_counter v) ;;;
  modify (fun w => with_counterTrace (counterTrace w ++ [v]) w).

(** [setTimeout(function () { node.applyCollection();
    that._dequeueRequest(); }, 0)] *)
Definition setTimeout (node : nref) : M unit :=
  modify (fun w => with_timers (timers w ++ [node]) w).

Definition _execDeferredNode (node : nref) : M unit :=
  l <- getThis ;;
  assignCounter (_counter l + 1) ;;;
  setTimeout node.

Definition _queueDeferredNode (node : nref) : M unit :=
  l <- getThis ;;
  if _visibility l then
    modNode node (node_set_inTheQueue true) ;;;
    if (_counter l >=? 1)%Z then
      modThis (fun l => set_pendingQueue
                 (QueueArray_push node (_deferredEntitiesPendingQueue l)) l)
    else _execDeferredNode node
  else ret tt.

(** [_whilePendings()], the loop on the backlog [q] that is left. *)
Fixpoint whilePendings_loop (q : list nref) : M (option nref) :=
  match q with
  | [] => ret None
  | _ :: q' =>
      l <- getThis ;;
      match QueueArray_pop (_deferredEntitiesPendingQueue l) with
      | (None, _) => ret None
      | (Some node, rest) =>
          modThis (set_pendingQueue rest) ;;;
          modNode node (node_set_inTheQueue false) ;;;
          l' <- getThis ;;
          if isVisible (scene_of l') node then ret (Some node)
          else whilePendings_loop q'
      end
  end.

Definition _whilePendings : M (option nref) :=
  l <- getThis ;; whilePendings_loop (_deferredEntitiesPendingQueue l).

Definition _dequeueRequest : M unit :=
  l <- getThis ;;
  assignCounter (_counter l - 1) ;;;
  l1 <- getThis ;;
  if negb (Nat.eqb (length (_deferredEntitiesPendingQueue l1)) 0)
     && (_counter l1 <? 1)%Z
  then
    node <- _whilePendings ;;
    match node with
    | Some n => _execDeferredNode n
    | None => ret tt
    end
  else ret tt.

(** The callback of [_execDeferredNode], run when its timer fires. *)
Definition timerCallback (node : nref) : M unit :=
  applyCollection node ;;;
  _dequeueRequest.

End Methods.


(** ** Notions used in the statements *)

(** [_fitExtent] on extents: the extent after the four comparisons with the
    position [ll]. *)
Definition fit (ll : LonLat) (ext : Extent) : Extent :=
  let e1 := if js_gt (lon ll) (lon (northEast ext))
            then ext_set_ne_lon (lon ll) ext else ext in
  let e2 := if js_gt (lat ll) (lat (northEast e1))
            then ext_set_ne_lat (lat ll) e1 else e1 in
  let e3 := if js_lt (lon ll) (lon (southWest e2))
            then ext_set_sw_lon (lon ll) e2 else e2 in
  if js_lt (lat ll) (lat (southWest e3))
  then ext_set_sw_lat (lat ll) e3 else e3.

(** The store once [add] has taken the entity: owner and index written on
    the entity, the entity pushed on the flat list. *)
Definition taken (E : eref) (w : World) : World :=
  with_this (set_entities (_entities (this w) ++ [E]) (this w))
    (with_ents
       (alter (set_vectorLayerIndex (Z.of_nat (length (_entities (this w))))) E
          (alter (set_vectorLayer (Some (_id (this w)))) E (ents w)))
       w).

(** The store with the layer's extent fitted to [ll]. *)
Definition fitted (ll : LonLat) (w : World) : World :=
  with_this (set_extent (fit ll (_extent (this w))) (this w)) w.

(** The store with one more dispatched event. *)
Definition announced (ev : EventName) (E : eref) (w : World) : World :=
  with_dispatched (dispatched w ++ [(ev, E)]) w.

(** The three roots of the layer. *)
Definition roots (l : Vector) : option nref * option nref * option nref :=
  (_entityCollectionsTree l, _entityCollectionsTreeNorth l,
   _entityCollectionsTreeSouth l).

(** An entity no vector layer and no collection owns. *)
Definition unowned (e : Entity) : Prop :=
  _vectorLayer e = None /\ _entityCollection e = None.

(** A layer with a rendering context attached: the planet is assigned and
    the three roots are built, as [addTo] leaves it. *)
Definition attached (w : World) (t tn ts : nref) : Prop :=
  is_Some (_planet (this w)) /\
  _entityCollectionsTree (this w) = Some t /\
  _entityCollectionsTreeNorth (this w) = Some tn /\
  _entityCollectionsTreeSouth (this w) = Some ts.

(** ** A collaborator set for concrete runs *)

(** Modelled from the spec: the placement step of [insertEntity] on a node
    that has no parent, no collection and room left: the count goes up, the
    entity joins [deferredEntities] and points back to the node; unless
    [rightNow], a node that is not queued yet is handed to the scheduler. *)
Definition sample_insertEntity (n : nref) (entity : eref) (rightNow : bool)
    (w : World) : World :=
  state_after
    ((modNode n (fun q =>
        node_set_count (count q + 1)
          (node_set_deferredEntities (deferredEntities q ++ [entity]) q)) ;;;
      modEntity entity (set_nodePtr (Some n)) ;;;
      q <- getNode n ;;
      if rightNow || _inTheQueue q then ret tt else _queueDeferredNode n) w) w.

(** A walk that leaves the store as it is and pushes nothing. *)
Definition stayed (w : World) : Walked :=
  mkWalked (ents w) (nodes w) (colls w) (_renderingNodes (this w))
    (_renderingNodesNorth (this w)) (_renderingNodesSouth (this w)) [] [].

(** Modelled from the spec: the Mercator band is about +-85.0511 degrees;
    a node counts as visible when the layer lists it among its rendering
    nodes.  The bulk build and the rendering walks of this set leave the
    store as it is and push nothing. *)
Definition sampleCollaborators : Collaborators :=
  {| MAX_LAT := 85.0511;
     MIN_LAT := -85.0511;
     insertEntity := sample_insertEntity;
     buildTree := fun _ _ w => w;
     collectRenderCollections := fun _ _ w => stayed w;
     collectRenderCollectionsPASS2 := fun _ _ w => stayed w;
     isVisible := fun sc n => bool_decide (n ∈ scene_renderingNodes sc) |}.

Definition samplePlanet : Planet := mkPlanet 3 [] [] [].

(** A point entity with a geodetic position, as its constructor leaves it. *)
Definition pointEntity (i : nat) (lo la : Q) : Entity :=
  mkEntity i false (Some (LonLat_new lo la)) None None (-1) None None.

(** A point entity that has a cartesian position only. *)
Definition cartesianEntity (i : nat) (cx cy cz : Q) : Entity :=
  mkEntity i false None (Some (mkVec3 cx cy cz)) None (-1) None None.

(** A line entity. *)
Definition lineEntity (i : nat) : Entity :=
  mkEntity i true (Some (LonLat_new 0 0)) None None (-1) None None.

(** A new layer with the identity 1 over the store [heap], zoom range
    [minZ]..[maxZ], visible, then attached to [samplePlanet]. *)
Definition attachedLayerWith (heap : list Entity) (minZ maxZ : Z) : World :=
  state_after
    (addTo (C := sampleCollaborators) samplePlanet
       (Vector_new 1 heap [] minZ maxZ true))
    (Vector_new 1 heap [] minZ maxZ true).

(** The same with the default zoom range 0..50. *)
Definition attachedLayer (heap : list Entity) : World :=
  attachedLayerWith heap 0 50.

(** ** Notions used for the scheduler *)

(** The nodes of a store once the queued flag of every node of [popped] is
    cleared. *)
Definition clearQueued (popped : list nref) (ns : list QuadNode)
    : list QuadNode :=
  foldl (fun ns n => alter (node_set_inTheQueue false) n ns) ns popped.

(** The store after a drain that popped [popped] and left [rest] on the
    backlog. *)
Definition drained (popped rest : list nref) (w : World) : World :=
  with_nodes (clearQueued popped (nodes w))
    (with_this (set_pendingQueue rest (this w)) w).

(** A reference to a node of the store. *)
Definition live (w : World) (n : nref) : Prop := is_Some (nodes w !! n).

Section SchedulerSteps.
Context `{C : Collaborators}.

(** The steps of the scheduler: a call of [_queueDeferredNode] on some node;
    the oldest timer firing and its callback running to its end; and
    anything else the program does, which leaves [_counter] and the timers
    alone.  A call that throws leaves the store it had reached. *)
Inductive sched_step : World -> World -> Prop :=
  | step_queue (n : nref) (w : World) :
      sched_step w (state_after (_queueDeferredNode n w) w)
  | step_timer (n : nref) (rest : list nref) (w : World) :
      timers w = n :: rest ->
      sched_step w
        (state_after (timerCallback n (with_timers rest w))
           (with_timers rest w))
  | step_other (w w' : World) :
      _counter (this w') = _counter (this w) ->
      timers w' = timers w ->
      counterTrace w' = counterTrace w ->
      sched_step w w'.

End SchedulerSteps.

(** A scheduler as the constructor leaves it. *)
Definition sched_init (w : World) : Prop :=
  _counter (this w) = 0%Z /\ timers w = [] /\ counterTrace w = [].

(** The counter and the timers are left alone. *)
Definition sched_same (w w' : World) : Prop :=
  _counter (this w') = _counter (this w) /\
  timers w' = timers w /\
  counterTrace w' = counterTrace w.

(** Whatever the outcome of [m], the store it leaves is related to the one
    it started from. *)
Definition keeps {A} (R : World -> World -> Prop) (m : M A) : Prop :=
  forall w, match m w with
            | Done _ w' => R w w'
            | Raise _ w' => R w w'
            | Diverge => True
            end.

(** A backlog for concrete runs: the three roots queued, the north root
    listed as rendering. *)
Definition backlogWorld : World :=
  with_this
    (set_pendingQueue [2; 1; 0]%nat
       (set_renderingNodes [1%nat] [] [] (this (attachedLayer []))))
    (attachedLayer []).

(** What the scheduler keeps true: at most one build in flight, no more
    timers pending than builds counted, and no value above 1 ever assigned
    to the counter. *)
Definition sched_inv (w : World) : Prop :=
  (0 <= _counter (this w) <= 1)%Z /\
  (Z.of_nat (length (timers w)) <= _counter (this w))%Z /\
  Forall (fun v => (v <= 1)%Z) (counterTrace w).


(** ** Notions used for the flat entity list *)

(** What a call leaves behind when it returns or throws. *)
Definition leaves {A} (o : outcome A) (P : World -> Prop) : Prop :=
  match o with
  | Done _ w' => P w'
  | Raise _ w' => P w'
  | Diverge => True
  end.

(** The stored indices are right: the entity at position [i] of the flat
    list names the layer as its owner and stores [i]. *)
Definition indexed (w : World) : Prop :=
  forall (i : nat) (r : eref),
    _entities (this w) !! i = Some r ->
    exists e, ents w !! r = Some e /\
              _vectorLayer e = Some (_id (this w)) /\
              _vectorLayerIndex e = Z.of_nat i.

(** The ownership marks of an entity. *)
Definition marks (e : Entity) : option nat * Z :=
  (_vectorLayer e, _vectorLayerIndex e).

(** The links of an entity into the trees. *)
Definition links (e : Entity) : option cref * option nref :=
  (_entityCollection e, _nodePtr e).

(** The flat list, the layer's identity and every entity's ownership marks
    are left alone. *)
Definition marks_kept (w w' : World) : Prop :=
  _entities (this w') = _entities (this w) /\
  _id (this w') = _id (this w) /\
  (forall r, marks <$> ents w' !! r = marks <$> ents w !! r).

(** The entities of a store after [_reindexEntitiesArray] has written the
    indices [i], [i + 1], ... on the entities [rs]. *)
Fixpoint reindexed (i : Z) (rs : list eref) (h : list Entity) : list Entity :=
  match rs with
  | [] => h
  | r :: rs' => reindexed (i + 1) rs' (alter (set_vectorLayerIndex i) r h)
  end.

(** An entity as [removeEntity] releases it. *)
Definition released (e : Entity) : Entity :=
  set_vectorLayerIndex (-1) (set_vectorLayer None e).

(** A store for concrete runs: a layer that was never attached, holding
    three point entities added one by one. *)
Definition threePoints : list Entity :=
  [pointEntity 7 10 20; pointEntity 8 (-30) 88; pointEntity 9 170 (-89)].

Definition looseLayer (heap : list Entity) : World :=
  Vector_new 1 heap [] 0 50 true.

Definition filledLayer : World :=
  state_after
    ((add (C := sampleCollaborators) 0 false ;;;
      add (C := sampleCollaborators) 1 false ;;;
      add (C := sampleCollaborators) 2 false) (looseLayer threePoints))
    (looseLayer threePoints).


(** ** Notions used for the rebuild of the trees *)




(** ** Notions used for the ancestor counts *)

(** [anc] is the parent chain that starts at [start]: the node itself, its
    parent, and so on up to a node without parent. *)
Inductive chain (ns : list QuadNode) : option nref -> list nref -> Prop :=
  | chain_root : chain ns None []
  | chain_up (n : nref) (q : QuadNode) (anc : list nref) :
      ns !! n = Some q -> chain ns (parentNode q) anc ->
      chain ns (Some n) (n :: anc).

(** A node with one entity less counted. *)
Definition decremented (q : QuadNode) : QuadNode :=
  node_set_count (count q - 1) q.

(** The nodes of a store once every node of [anc] is decremented. *)
Definition decAll (anc : list nref) (ns : list QuadNode) : list QuadNode :=
  foldl (fun ns n => alter decremented n ns) ns anc.

(** A node that counts no entity and buffers none loses its collection. *)
Definition emptiedNode (q : QuadNode) : QuadNode :=
  if (count q =? 0)%Z && Nat.eqb (length (deferredEntities q)) 0
  then node_set_entityCollection None q else q.

(** [removeEntity] from the point where the entity is off the flat list and
    released: the collection or the deferred buffer, the node counts, the
    back-reference and the event. *)
Definition removeEntity_rest (E : eref) : M unit :=
  (e1 <- getEntity E ;;
   match _entityCollection e1 with
   | Some c =>
       _removeEntitySilent c E ;;;
       e2 <- getEntity E ;;
       decAncestors (_nodePtr e2) ;;;
       match _nodePtr e2 with
       | Some n =>
           q <- getNode n ;;
           if (count q =? 0)%Z && Nat.eqb (length (deferredEntities q)) 0
           then modNode n (node_set_entityCollection None)
           else ret tt
       | None => ret tt
       end
   | None =>
       match _nodePtr e1 with
       | Some n =>
           q <- getNode n ;;
           if negb (Nat.eqb (length (deferredEntities q)) 0)
           then scanDeferred (length (deferredEntities q)) n E
           else ret tt
       | None => ret tt
       end
   end) ;;;
  (e3 <- getEntity E ;;
   if truthy (_nodePtr e3) then modEntity E (set_nodePtr None)
   else ret tt) ;;;
  dispatch entityremove E.

(** A store for concrete runs: the north root with a child node, and a
    point entity that sits in the child's materialized collection. *)
Definition nestedWorld : World :=
  let w := attachedLayer [] in
  mkWorld
    [mkEntity 7 false (Some (LonLat_new 10 88)) None (Some 1%nat) 0 (Some 1%nat)
       (Some 3%nat)]
    (alter (node_set_count 1) 1%nat (nodes w)
       ++ [mkQuadNode 1 (Extent_createFromArray (-180) 85.0511 0 90)
             (Some 1%nat) 1 [] (Some 1%nat) false])
    (colls w ++ [mkEntityCollection [0%nat] true])
    (set_entities [0%nat] (this w))
    [] [] [].
(** ** Reasoning about single steps *)

Lemma bind_Done {A B} (m : M A) (k : A -> M B) w a w' :
  m w = Done a w' -> bind m k w = k a w'.
Proof. unfold bind. intros ->. reflexivity. Qed.

Lemma bind_Raise {A B} (m : M A) (k : A -> M B) w e w' :
  m w = Raise e w' -> bind m k w = Raise e w'.
Proof. unfold bind. intros ->. reflexivity. Qed.

Lemma getEntity_Done r e w :
  ents w !! r = Some e -> getEntity r w = Done e w.
Proof. unfold getEntity. intros ->. reflexivity. Qed.

Lemma getNode_Done n q w :
  nodes w !! n = Some q -> getNode n w = Done q w.
Proof. unfold getNode. intros ->. reflexivity. Qed.

Lemma modEntity_Done r f e w :
  ents w !! r = Some e ->
  modEntity r f w = Done tt (with_ents (alter f r (ents w)) w).
Proof.
  intros H. unfold modEntity.
  rewrite (bind_Done _ _ _ _ _ (getEntity_Done _ _ _ H)). reflexivity.
Qed.

Lemma modNode_Done n f q w :
  nodes w !! n = Some q ->
  modNode n f w = Done tt (with_nodes (alter f n (nodes w)) w).
Proof.
  intros H. unfold modNode.
  rewrite (bind_Done _ _ _ _ _ (getNode_Done _ _ _ H)). reflexivity.
Qed.

Lemma js_gt_true (a b : Q) : js_gt a b = true <-> (b < a)%Q.
Proof.
  unfold js_gt. rewrite negb_true_iff, <- not_true_iff_false, Qle_bool_iff.
  split; [apply Qnot_le_lt | apply Qlt_not_le].
Qed.

Lemma js_gt_false (a b : Q) : js_gt a b = false <-> (a <= b)%Q.
Proof. unfold js_gt. rewrite negb_false_iff. apply Qle_bool_iff. Qed.

Lemma js_lt_true (a b : Q) : js_lt a b = true <-> (a < b)%Q.
Proof. apply js_gt_true. Qed.

Lemma js_lt_false (a b : Q) : js_lt a b = false <-> (b <= a)%Q.
Proof. apply js_gt_false. Qed.

(** ** The scheduler gate (C10) *)

(** C10: when the layer's visibility flag is false, [_queueDeferredNode(N)]
    returns with the store as it was: the node is not marked as queued, the
    backlog is not pushed to, no timer is set and the counter keeps its
    value. *)
Theorem queueDeferredNode_hidden_layer (N : nref) (w : World) :
  _visibility (this w) = false ->
  _queueDeferredNode N w = Done tt w.
Proof.
  intros Hvis. unfold _queueDeferredNode, bind, getThis.
  rewrite Hvis. reflexivity.
Qed.

Example queueDeferredNode_hidden_layer_witness :
  let w := Vector_new 1 [] [] 0 50 false in
  _visibility (this w) = false /\ _queueDeferredNode 0 w = Done tt w.
Proof.
  split; [reflexivity|].
  apply (queueDeferredNode_hidden_layer 0 (Vector_new 1 [] [] 0 50 false)).
  reflexivity.
Defined.

(** ** Adding an entity *)

Section Add.
Context `{C : Collaborators}.

(** C9: for an entity that a vector layer or an entity collection already
    owns, [add] returns with the store as it was, so the flat list, the
    trees, the always-collection and the extent keep their values and no
    entityadd event is dispatched; a second call does the same. *)
Theorem add_owned_is_noop (E : eref) (e : Entity) (rightNow : bool) (w : World) :
  ents w !! E = Some e ->
  _vectorLayer e <> None \/ _entityCollection e <> None ->
  add E rightNow w = Done tt w /\
  (add E rightNow ;;; add E rightNow) w = Done tt w.
Proof.
  intros HE Hown.
  assert (Hadd : add E rightNow w = Done tt w).
  { unfold add. rewrite (bind_Done _ _ _ _ _ (getEntity_Done _ _ _ HE)).
    destruct (_vectorLayer e), (_entityCollection e); simpl;
      try reflexivity.
    destruct Hown as [H|H]; congruence. }
  split; [exact Hadd|].
  rewrite (bind_Done _ _ _ _ _ Hadd). exact Hadd.
Qed.

Lemma fitExtent_Done (E : eref) (e : Entity) (ll : LonLat) (w : World) :
  ents w !! E = Some e -> _lonlat e = Some ll ->
  _fitExtent E w = Done tt (fitted ll w).
Proof.
  intros HE Hll. unfold _fitExtent.
  rewrite (bind_Done _ _ _ _ _ (getEntity_Done _ _ _ HE)), Hll.
  clear HE. destruct w as [he hn hc l hd ht hct]. destruct l.
  unfold fitted, fit, bind, getThis, modThis, modify, ret. simpl.
  destruct (js_gt (lon ll) _); simpl;
    destruct (js_gt (lat ll) _); simpl;
    destruct (js_lt (lon ll) _); simpl;
    destruct (js_lt (lat ll) _); reflexivity.
Qed.

Lemma taken_lookup (E : eref) (e : Entity) (w : World) :
  ents w !! E = Some e ->
  ents (taken E w) !! E =
    Some (set_vectorLayerIndex (Z.of_nat (length (_entities (this w))))
            (set_vectorLayer (Some (_id (this w))) e)).
Proof.
  intros HE. unfold taken. simpl.
  rewrite !list_lookup_alter_eq, HE. reflexivity.
Qed.

(** The first part of [add] on an entity nobody owns. *)
Lemma add_unowned (E : eref) (e : Entity) (rightNow : bool) (w : World) :
  ents w !! E = Some e -> unowned e ->
  add E rightNow w =
    ((if lineString e then
       EntityCollection_add (_entityCollectionAlways (this w)) E
     else if truthy (_planet (this w)) then
       (e1 <- getEntity E ;;
        if negb (truthy (_lonlat e1)) then throw TypeError else ret tt) ;;;
       _fitExtent E ;;;
       e2 <- getEntity E ;;
       l2 <- getThis ;;
       match _lonlat e2 with
       | None => throw TypeError
       | Some ll =>
           if js_gt (lat ll) MAX_LAT then
             onRoot (_entityCollectionsTreeNorth l2)
               (fun n => insertEntity n E rightNow)
           else if js_lt (lat ll) MIN_LAT then
             onRoot (_entityCollectionsTreeSouth l2)
               (fun n => insertEntity n E rightNow)
           else
             onRoot (_entityCollectionsTree l2)
               (fun n => insertEntity n E rightNow)
       end
     else ret tt) ;;;
    dispatch entityadd E) (taken E w).
Proof.
  intros HE [Hv Hc]. unfold add.
  rewrite (bind_Done _ _ _ _ _ (getEntity_Done _ _ _ HE)), Hv, Hc. simpl.
  unfold bind at 1. unfold getThis at 1.
  rewrite (bind_Done _ _ _ _ _ (modEntity_Done _ _ _ _ HE)).
  erewrite bind_Done; cycle 1.
  { eapply modEntity_Done. simpl. rewrite list_lookup_alter_eq, HE. reflexivity. }
  reflexivity.
Qed.

(** [add] on a point entity nobody owns that carries a position, on an
    attached layer: the entity is taken, the extent fitted, and the root
    chosen by the two latitude tests gets the one [insertEntity] call. *)
Lemma add_point (E : eref) (e : Entity) (ll : LonLat) (rightNow : bool)
    (w : World) (t tn ts : nref) :
  ents w !! E = Some e -> unowned e -> lineString e = false ->
  _lonlat e = Some ll -> attached w t tn ts ->
  add E rightNow w =
    Done tt (announced entityadd E
      (insertEntity
         (if js_gt (lat ll) MAX_LAT then tn
          else if js_lt (lat ll) MIN_LAT then ts else t)
         E rightNow (fitted ll (taken E w)))).
Proof.
  intros HE Hun Hline Hll (Hp & Ht & Htn & Hts).
  rewrite (add_unowned E e rightNow w HE Hun), Hline.
  assert (Hpl : truthy (_planet (this w)) = true).
  { destruct Hp as [p ->]. reflexivity. }
  rewrite Hpl.
  pose proof (taken_lookup E e w HE) as HE1.
  assert (HE2 : ents (fitted ll (taken E w)) !! E = ents (taken E w) !! E)
    by reflexivity.
  rewrite HE1 in HE2.
  unfold bind.
  rewrite (getEntity_Done _ _ _ HE1).
  cbn [_lonlat set_vectorLayerIndex set_vectorLayer]. rewrite Hll.
  cbn [truthy negb ret].
  rewrite (fitExtent_Done E _ ll (taken E w) HE1 Hll).
  rewrite (getEntity_Done _ _ _ HE2).
  cbn [_lonlat set_vectorLayerIndex set_vectorLayer getThis]. rewrite Hll.
  change (this (fitted ll (taken E w)))
    with (set_extent (fit ll (_extent (this (taken E w)))) (this (taken E w))).
  cbn [_entityCollectionsTree _entityCollectionsTreeNorth
       _entityCollectionsTreeSouth set_extent taken this with_this
       set_entities].
  rewrite Htn, Hts, Ht.
  destruct (js_gt (lat ll) MAX_LAT); [reflexivity|].
  destruct (js_lt (lat ll) MIN_LAT); reflexivity.
Qed.

(** C4: on an attached layer, a point entity nobody owns that carries a
    position is handed to exactly one root: the north polar root when its
    latitude is above MAX_LAT, the south polar root when it is below MIN_LAT,
    and the Mercator root otherwise, both boundary latitudes included. *)
Theorem add_routes_by_latitude (E : eref) (e : Entity) (ll : LonLat)
    (rightNow : bool) (w : World) (t tn ts : nref) :
  (MIN_LAT <= MAX_LAT)%Q ->
  ents w !! E = Some e -> unowned e -> lineString e = false ->
  _lonlat e = Some ll -> attached w t tn ts ->
  let placed := fitted ll (taken E w) in
  ((MAX_LAT < lat ll)%Q ->
     add E rightNow w =
       Done tt (announced entityadd E (insertEntity tn E rightNow placed))) /\
  ((lat ll < MIN_LAT)%Q ->
     add E rightNow w =
       Done tt (announced entityadd E (insertEntity ts E rightNow placed))) /\
  ((MIN_LAT <= lat ll)%Q /\ (lat ll <= MAX_LAT)%Q ->
     add E rightNow w =
       Done tt (announced entityadd E (insertEntity t E rightNow placed))).
Proof.
  intros Hband HE Hun Hline Hll Hat placed.
  rewrite (add_point E e ll rightNow w t tn ts HE Hun Hline Hll Hat).
  fold placed. repeat split.
  - intros H. apply js_gt_true in H. rewrite H. reflexivity.
  - intros H.
    assert (Hn : js_gt (lat ll) MAX_LAT = false).
    { apply js_gt_false. apply Qlt_le_weak.
      eapply Qlt_le_trans; [exact H | exact Hband]. }
    apply js_lt_true in H. rewrite Hn, H. reflexivity.
  - intros [H1 H2]. apply js_gt_false in H2. apply js_lt_false in H1.
    rewrite H2, H1. reflexivity.
Qed.

(** On an attached layer, [add] on a point entity nobody owns that has no
    [_lonlat] throws in the branch that should derive it: the entity is
    already taken, the extent is not fitted, no root is called and no event
    is dispatched. *)
Lemma add_without_lonlat (E : eref) (e : Entity) (rightNow : bool) (w : World) :
  ents w !! E = Some e -> unowned e -> lineString e = false ->
  _lonlat e = None -> is_Some (_planet (this w)) ->
  add E rightNow w = Raise TypeError (taken E w).
Proof.
  intros HE Hun Hline Hll [p Hp].
  rewrite (add_unowned E e rightNow w HE Hun), Hline, Hp.
  pose proof (taken_lookup E e w HE) as HE1.
  cbn [truthy]. unfold bind. rewrite (getEntity_Done _ _ _ HE1).
  cbn [_lonlat set_vectorLayerIndex set_vectorLayer truthy]. rewrite Hll.
  reflexivity.
Qed.

End Add.

Example add_owned_is_noop_witness :
  let w := state_after
             (add (C := sampleCollaborators) 0 false
                (attachedLayer [pointEntity 7 10 20]))
             (attachedLayer [pointEntity 7 10 20]) in
  _vectorLayer <$> ents w !! 0%nat = Some (Some 1%nat) /\
  add (C := sampleCollaborators) 0 true w = Done tt w.
Proof.
  split; [reflexivity|].
  eapply (add_owned_is_noop (C := sampleCollaborators) 0).
  - reflexivity.
  - left. discriminate.
Defined.

Example add_routes_by_latitude_witness :
  attached (attachedLayer [pointEntity 7 10 88]) 0 1 2 /\
  (@MAX_LAT sampleCollaborators < lat (LonLat_new 10 88))%Q /\
  @add sampleCollaborators 0 false (attachedLayer [pointEntity 7 10 88]) =
    Done tt (announced entityadd 0
      (@insertEntity sampleCollaborators 1 0 false
         (fitted (LonLat_new 10 88)
            (taken 0 (attachedLayer [pointEntity 7 10 88]))))).
Proof.
  assert (Hat : attached (attachedLayer [pointEntity 7 10 88]) 0 1 2).
  { repeat split. eexists. vm_compute. reflexivity. }
  assert (Hband : (@MIN_LAT sampleCollaborators <= @MAX_LAT sampleCollaborators)%Q)
    by (vm_compute; discriminate).
  assert (HE : ents (attachedLayer [pointEntity 7 10 88]) !! 0%nat
               = Some (pointEntity 7 10 88)) by (vm_compute; reflexivity).
  assert (Hun : unowned (pointEntity 7 10 88)) by (split; reflexivity).
  assert (Hnorth : (@MAX_LAT sampleCollaborators < lat (LonLat_new 10 88))%Q)
    by (vm_compute; reflexivity).
  pose proof (add_routes_by_latitude (C := sampleCollaborators) 0
                (pointEntity 7 10 88) (LonLat_new 10 88) false
                (attachedLayer [pointEntity 7 10 88]) 0 1 2
                Hband HE Hun eq_refl eq_refl Hat) as [Hrun _].
  split; [exact Hat|]. split; [exact Hnorth|]. exact (Hrun Hnorth).
Defined.

(** C2: a point entity with a cartesian position and no lon/lat, added to an
    attached layer: the call throws a TypeError at the read of [this.layer]
    and leaves the entity on the flat list with the extent not fitted, no
    root called and no entityadd event dispatched. *)
Theorem add_cartesian_only_throws :
  let w := attachedLayer [cartesianEntity 7 6378137 0 0] in
  add (C := sampleCollaborators) 0 false w = Raise TypeError (taken 0 w) /\
  _entities (this (taken 0 w)) = [0%nat] /\
  _extent (this (taken 0 w)) = emptyExtent /\
  nodes (taken 0 w) = nodes w /\
  dispatched (taken 0 w) = [].
Proof.
  split; [|repeat split].
  apply (add_without_lonlat (C := sampleCollaborators) 0
           (cartesianEntity 7 6378137 0 0)); try reflexivity.
  - split; reflexivity.
  - eexists. reflexivity.
Qed.

(** ** The visible collections of a frame *)

Section Collect.
Context `{C : Collaborators}.

Lemma roots_inv (l : Vector) (a b c : option nref) :
  roots l = (a, b, c) ->
  _entityCollectionsTree l = a /\ _entityCollectionsTreeNorth l = b /\
  _entityCollectionsTreeSouth l = c.
Proof. unfold roots. intros H. injection H. auto. Qed.

Lemma walk_Done (f : World -> Walked) (outArr : list cref) (w : World) :
  exists w', walk f outArr w = Done (outArr ++ pushed_outArr (f w)) w' /\
    roots (this w') = roots (this w) /\
    _secondPASS (this w') = _secondPASS (this w) ++ pushed_secondPASS (f w).
Proof. eexists. split; [reflexivity|]. split; reflexivity. Qed.

Lemma secondPass_Done (visibleNodes : list nat) (i : nat) :
  forall (outArr : list cref) (w : World),
    i <= length (_secondPASS (this w)) ->
    exists rest w',
      secondPass i visibleNodes outArr w = Done (outArr ++ rest) w' /\
      roots (this w') = roots (this w).
Proof.
  induction i as [|j IH]; intros outArr w Hi.
  - exists [], w. rewrite app_nil_r. split; reflexivity.
  - destruct (lookup_lt_is_Some_2 (_secondPASS (this w)) j) as [n Hn]; [lia|].
    cbn [secondPass]. unfold bind at 1. unfold getThis at 1. rewrite Hn.
    destruct (walk_Done (collectRenderCollectionsPASS2 n visibleNodes) outArr w)
      as (w1 & Hw & Hr & Hs).
    rewrite (bind_Done _ _ _ _ _ Hw).
    destruct (IH (outArr ++ pushed_outArr
                    (collectRenderCollectionsPASS2 n visibleNodes w)) w1)
      as (rest & w' & Hrun & Hr').
    { rewrite Hs, length_app. lia. }
    exists (pushed_outArr (collectRenderCollectionsPASS2 n visibleNodes w) ++ rest), w'.
    rewrite Hrun, app_assoc, Hr', Hr. split; reflexivity.
Qed.

Lemma collectTree_Done (root : Vector -> option nref)
    (visibleNodes : list nat) (outArr : list cref) (w : World) :
  (forall l l', roots l = roots l' -> root l = root l') ->
  is_Some (root (this w)) ->
  exists rest w',
    collectTree root visibleNodes outArr w = Done (outArr ++ rest) w' /\
    roots (this w') = roots (this w).
Proof.
  intros Hroot [n Hn]. unfold collectTree.
  unfold bind at 1. unfold modThis, modify at 1.
  unfold bind at 1. unfold getThis at 1.
  cbn [this with_this].
  rewrite (Hroot (set_secondPASS [] (this w)) (this w)) by reflexivity.
  rewrite Hn.
  destruct (walk_Done (collectRenderCollections n visibleNodes) outArr
              (with_this (set_secondPASS [] (this w)) w))
    as (w1 & Hw & Hr & Hs).
  rewrite (bind_Done _ _ _ _ _ Hw).
  unfold bind at 1. unfold getThis at 1.
  destruct (secondPass_Done visibleNodes (length (_secondPASS (this w1)))
              (outArr ++ pushed_outArr
                 (collectRenderCollections n visibleNodes
                    (with_this (set_secondPASS [] (this w)) w))) w1)
    as (rest & w' & Hrun & Hr'); [lia|].
  eexists (_ ++ rest), w'. rewrite Hrun, app_assoc, Hr', Hr.
  split; reflexivity.
Qed.

(** C3, amended: on a layer with a planet and its three roots, a call of
    [_collectVisibleCollections] whose camera zoom lies within the layer's
    zoom range returns with the always-collection pushed on the output array
    (first, before what the walks push); a call whose zoom lies outside the
    range returns with the array and the store as they were. *)
Theorem collectVisible_within_zoom_range (outArr : list cref) (w : World)
    (p : Planet) (t tn ts : nref) :
  _planet (this w) = Some p ->
  roots (this w) = (Some t, Some tn, Some ts) ->
  ((minZoom (this w) <= maxCurrZoom p <= maxZoom (this w))%Z ->
     exists rest w',
       _collectVisibleCollections outArr w =
         Done (outArr ++ _entityCollectionAlways (this w) :: rest) w') /\
  (~ (minZoom (this w) <= maxCurrZoom p <= maxZoom (this w))%Z ->
     _collectVisibleCollections outArr w = Done outArr w).
Proof.
  intros Hp Hroots. unfold _collectVisibleCollections.
  split; intros Hz; unfold bind at 1; unfold getThis at 1; rewrite Hp.
  - replace ((minZoom (this w) <=? maxCurrZoom p)%Z
             && (maxZoom (this w) >=? maxCurrZoom p)%Z) with true
      by (symmetry; apply andb_true_iff; split; lia).
    unfold bind at 1. unfold modThis, modify at 1.
    set (w0 := with_this (set_renderingNodes [] [] [] (this w)) w).
    assert (H0 : roots (this w0) = (Some t, Some tn, Some ts)) by exact Hroots.
    destruct (collectTree_Done _entityCollectionsTree (_visibleNodes p)
                (outArr ++ [_entityCollectionAlways (this w)]) w0)
      as (r1 & w1 & Hrun1 & Hr1).
    { intros l l' H. injection H. auto. }
    { rewrite (proj1 (roots_inv _ _ _ _ H0)). eauto. }
    rewrite (bind_Done _ _ _ _ _ Hrun1).
    destruct (collectTree_Done _entityCollectionsTreeNorth (_visibleNodesNorth p)
                ((outArr ++ [_entityCollectionAlways (this w)]) ++ r1) w1)
      as (r2 & w2 & Hrun2 & Hr2).
    { intros l l' H. injection H. auto. }
    { assert (H1 : roots (this w1) = (Some t, Some tn, Some ts))
        by (rewrite Hr1; exact H0).
      rewrite (proj1 (proj2 (roots_inv _ _ _ _ H1))). eauto. }
    rewrite (bind_Done _ _ _ _ _ Hrun2).
    destruct (collectTree_Done _entityCollectionsTreeSouth (_visibleNodesSouth p)
                (((outArr ++ [_entityCollectionAlways (this w)]) ++ r1) ++ r2) w2)
      as (r3 & w3 & Hrun3 & Hr3).
    { intros l l' H. injection H. auto. }
    { assert (H2 : roots (this w2) = (Some t, Some tn, Some ts))
        by (rewrite Hr2, Hr1; exact H0).
      rewrite (proj2 (proj2 (roots_inv _ _ _ _ H2))). eauto. }
    exists (r1 ++ r2 ++ r3), w3. rewrite Hrun3.
    rewrite <- !app_assoc. reflexivity.
  - replace ((minZoom (this w) <=? maxCurrZoom p)%Z
             && (maxZoom (this w) >=? maxCurrZoom p)%Z) with false;
      [reflexivity|].
    symmetry. apply andb_false_iff.
    destruct (Z.leb_spec (minZoom (this w)) (maxCurrZoom p)); [|left; reflexivity].
    right. rewrite Z.geb_leb. apply Z.leb_gt. lia.
Qed.

End Collect.

Example collectVisible_within_zoom_range_witness :
  let w := attachedLayer [] in
  (minZoom (this w) <= 3 <= maxZoom (this w))%Z /\
  exists rest w',
    _collectVisibleCollections (C := sampleCollaborators) [] w =
      Done ([] ++ _entityCollectionAlways (this w) :: rest) w'.
Proof.
  assert (Hz : (minZoom (this (attachedLayer [])) <= 3
                <= maxZoom (this (attachedLayer [])))%Z) by (vm_compute; split; discriminate).
  split; [exact Hz|].
  exact (proj1 (collectVisible_within_zoom_range (C := sampleCollaborators)
                  [] (attachedLayer []) samplePlanet 0 1 2
                  eq_refl eq_refl) Hz).
Defined.

(** C3 as stated fails: a layer whose zoom range 5..50 starts above the
    camera zoom 3 returns the output array without the always-collection. *)
Example collectVisible_outside_zoom_range :
  let w := attachedLayerWith [] 5 50 in
  _collectVisibleCollections (C := sampleCollaborators) [] w = Done [] w /\
  ~ In (_entityCollectionAlways (this w)) [].
Proof. split; [reflexivity | intros []]. Qed.

(** ** Replacing the entity set *)

(** C1: a line entity added to an attached layer sits in the
    always-collection; [setEntities([])] then returns with an empty flat
    list while the always-collection still holds the entity, and the entity
    still names the layer and the collection as its owners: [clear] has
    removed nothing. *)
Theorem setEntities_keeps_old_line_entity :
  let w0 := attachedLayer [lineEntity 7] in
  let w1 := state_after (add (C := sampleCollaborators) 0 false w0) w0 in
  let w2 := state_after (setEntities (C := sampleCollaborators) [] w1) w1 in
  add (C := sampleCollaborators) 0 false w0 = Done tt w1 /\
  ec_entities <$> colls w1 !! _entityCollectionAlways (this w1) = Some [0%nat] /\
  setEntities (C := sampleCollaborators) [] w1 = Done tt w2 /\
  _entities (this w2) = [] /\
  ec_entities <$> colls w2 !! _entityCollectionAlways (this w2) = Some [0%nat] /\
  _vectorLayer <$> ents w2 !! 0%nat = Some (Some 1%nat) /\
  _entityCollection <$> ents w2 !! 0%nat = Some (Some 0%nat).
Proof. vm_compute. repeat split. Qed.

(** ** Draining the backlog *)

Lemma clearQueued_lookup (popped : list nref) :
  forall (ns : list QuadNode) (m : nref),
    clearQueued popped ns !! m =
      if bool_decide (m ∈ popped)
      then node_set_inTheQueue false <$> ns !! m
      else ns !! m.
Proof.
  unfold clearQueued.
  induction popped as [|n popped IH]; intros ns m.
  - reflexivity.
  - cbn [foldl]. rewrite IH. destruct (decide (m = n)) as [->|Hne].
    + rewrite list_lookup_alter_eq.
      rewrite (bool_decide_eq_true_2 (n ∈ n :: popped)) by apply list_elem_of_here.
      destruct (bool_decide (n ∈ popped)); [|reflexivity].
      destruct (ns !! n) as [[]|]; reflexivity.
    + rewrite list_lookup_alter_ne by congruence.
      destruct (bool_decide_reflect (m ∈ popped)) as [Hin|Hnin].
      * rewrite bool_decide_eq_true_2; [reflexivity|].
        apply list_elem_of_further. exact Hin.
      * rewrite bool_decide_eq_false_2; [reflexivity|].
        intros Hin. apply elem_of_cons in Hin as [?|?]; congruence.
Qed.

Lemma drained_nil (w : World) :
  _deferredEntitiesPendingQueue (this w) = [] -> drained [] [] w = w.
Proof.
  destruct w as [he hn hc l hd ht hct]. destruct l. simpl.
  intros ->. reflexivity.
Qed.

Section Drain.
Context `{C : Collaborators}.

Lemma whilePendings_loop_found (skipped : list nref) :
  forall (n : nref) (rest : list nref) (w : World),
    _deferredEntitiesPendingQueue (this w) = skipped ++ n :: rest ->
    Forall (live w) (skipped ++ [n]) ->
    Forall (fun m => isVisible (scene_of (this w)) m = false) skipped ->
    isVisible (scene_of (this w)) n = true ->
    whilePendings_loop (skipped ++ n :: rest) w =
      Done (Some n) (drained (skipped ++ [n]) rest w).
Proof.
  induction skipped as [|m skipped IH]; intros n rest w Hq Hlive Hskip Hvis.
  - cbn [app] in *. cbn [whilePendings_loop].
    unfold bind at 1. unfold getThis at 1. rewrite Hq. cbn [QueueArray_pop].
    unfold bind at 1. unfold modThis, modify at 1.
    destruct (Forall_inv Hlive) as [qn Hn].
    erewrite bind_Done; [|eapply modNode_Done; exact Hn].
    unfold bind, getThis. cbn [this with_this with_nodes].
    change (scene_of (set_pendingQueue rest (this w))) with (scene_of (this w)).
    rewrite Hvis. reflexivity.
  - cbn [app] in *. cbn [whilePendings_loop].
    unfold bind at 1. unfold getThis at 1. rewrite Hq. cbn [QueueArray_pop].
    unfold bind at 1. unfold modThis, modify at 1.
    destruct (Forall_inv Hlive) as [qm Hm].
    apply Forall_inv_tail in Hlive.
    pose proof (Forall_inv Hskip) as Hmv. cbv beta in Hmv.
    apply Forall_inv_tail in Hskip.
    erewrite bind_Done; [|eapply modNode_Done; exact Hm].
    unfold bind at 1. unfold getThis at 1. cbn [this with_this with_nodes].
    change (scene_of (set_pendingQueue (skipped ++ n :: rest) (this w)))
      with (scene_of (this w)).
    rewrite Hmv.
    rewrite IH; [reflexivity|reflexivity| | |].
    + eapply List.Forall_impl; [|exact Hlive]. intros k [qk Hk]. unfold live.
      cbn [nodes with_nodes with_this]. rewrite list_lookup_alter.
      destruct (decide (m = k)) as [->|]; rewrite ?Hk; eauto.
    + exact Hskip.
    + exact Hvis.
Qed.

Lemma whilePendings_loop_none (q : list nref) :
  forall (w : World),
    _deferredEntitiesPendingQueue (this w) = q ->
    Forall (live w) q ->
    Forall (fun m => isVisible (scene_of (this w)) m = false) q ->
    whilePendings_loop q w = Done None (drained q [] w).
Proof.
  induction q as [|m q IH]; intros w Hq Hlive Hskip.
  - cbn [whilePendings_loop]. rewrite (drained_nil w Hq). reflexivity.
  - cbn [whilePendings_loop].
    unfold bind at 1. unfold getThis at 1. rewrite Hq. cbn [QueueArray_pop].
    unfold bind at 1. unfold modThis, modify at 1.
    destruct (Forall_inv Hlive) as [qm Hm].
    apply Forall_inv_tail in Hlive.
    pose proof (Forall_inv Hskip) as Hmv. cbv beta in Hmv.
    apply Forall_inv_tail in Hskip.
    erewrite bind_Done; [|eapply modNode_Done; exact Hm].
    unfold bind at 1. unfold getThis at 1. cbn [this with_this with_nodes].
    change (scene_of (set_pendingQueue q (this w))) with (scene_of (this w)).
    rewrite Hmv.
    rewrite IH; [reflexivity|reflexivity| |].
    + eapply List.Forall_impl; [|exact Hlive]. intros k [qk Hk]. unfold live.
      cbn [nodes with_nodes with_this]. rewrite list_lookup_alter.
      destruct (decide (m = k)) as [->|]; rewrite ?Hk; eauto.
    + exact Hskip.
Qed.

(** C6: [_whilePendings] takes the backlog from its most recent entry on
    ([pop] gives back what the last [push] put).  With the entries that are
    not visible at that moment before the first visible one [n], it returns
    [n], leaves the entries behind [n] on the backlog and has cleared the
    queued flag of the skipped entries and of [n], and of no other node;
    with no visible entry it returns nothing, leaves the backlog empty and
    has cleared the flag of every entry. *)
Theorem whilePendings_drains_lifo (w : World) :
  let q := _deferredEntitiesPendingQueue (this w) in
  let visible := isVisible (scene_of (this w)) in
  Forall (live w) q ->
  (forall (m : nref) (q0 : list nref),
     QueueArray_pop (QueueArray_push m q0) = (Some m, q0)) /\
  (forall (skipped : list nref) (n : nref) (rest : list nref),
     q = skipped ++ n :: rest ->
     Forall (fun m => visible m = false) skipped -> visible n = true ->
     _whilePendings w = Done (Some n) (drained (skipped ++ [n]) rest w)) /\
  (Forall (fun m => visible m = false) q ->
     _whilePendings w = Done None (drained q [] w)) /\
  (forall (popped rest : list nref) (m : nref),
     _deferredEntitiesPendingQueue (this (drained popped rest w)) = rest /\
     nodes (drained popped rest w) !! m =
       if bool_decide (m ∈ popped)
       then node_set_inTheQueue false <$> nodes w !! m
       else nodes w !! m).
Proof.
  intros q visible Hlive. split; [reflexivity|]. split; [|split].
  - intros skipped n rest Hq Hskip Hvis.
    unfold _whilePendings, bind, getThis. fold q. rewrite Hq.
    apply whilePendings_loop_found; try assumption.
    rewrite Hq in Hlive. apply Forall_app in Hlive as [H1 H2].
    apply Forall_app. split; [exact H1|].
    apply Forall_inv in H2. constructor; [exact H2|constructor].
  - intros Hskip. unfold _whilePendings, bind, getThis. fold q.
    apply whilePendings_loop_none; [reflexivity|exact Hlive|exact Hskip].
  - intros popped rest m. split; [reflexivity|].
    apply clearQueued_lookup.
Qed.

End Drain.

Example whilePendings_drains_lifo_witness :
  Forall (live backlogWorld) [2; 1; 0]%nat /\
  @_whilePendings sampleCollaborators backlogWorld =
    Done (Some 1%nat) (drained ([2%nat] ++ [1%nat]) [0%nat] backlogWorld).
Proof.
  assert (Hlive : Forall (live backlogWorld)
                    (_deferredEntitiesPendingQueue (this backlogWorld))).
  { repeat constructor; eexists; vm_compute; reflexivity. }
  split; [exact Hlive|].
  refine (proj1 (proj2 (whilePendings_drains_lifo (C := sampleCollaborators)
                          backlogWorld Hlive)) [2%nat] 1%nat [0%nat] _ _ _).
  - reflexivity.
  - repeat constructor.
  - reflexivity.
Defined.

(** ** The scheduler's bound *)

Lemma sched_same_refl (w : World) : sched_same w w.
Proof. repeat split. Qed.

Lemma sched_same_trans (w1 w2 w3 : World) :
  sched_same w1 w2 -> sched_same w2 w3 -> sched_same w1 w3.
Proof.
  intros (a & b & c) (a' & b' & c').
  repeat split; congruence.
Qed.

Section Keeps.
Context {R : World -> World -> Prop}.
Hypothesis R_refl : forall w, R w w.
Hypothesis R_trans : forall w1 w2 w3, R w1 w2 -> R w2 w3 -> R w1 w3.

Lemma keeps_ret {A} (a : A) : keeps R (ret a).
Proof using R_refl. intros w. apply R_refl. Qed.

Lemma keeps_throw {A} (e : JsError) : keeps R (throw (A := A) e).
Proof using R_refl. intros w. apply R_refl. Qed.

Lemma keeps_bind {A B} (m : M A) (k : A -> M B) :
  keeps R m -> (forall a, keeps R (k a)) -> keeps R (bind m k).
Proof using R_trans.
  intros Hm Hk w. unfold bind. specialize (Hm w).
  destruct (m w) as [a w'| |]; [|exact Hm|exact I].
  specialize (Hk a w'). destruct (k a w'); eauto.
Qed.

Lemma keeps_modify (f : World -> World) :
  (forall w, R w (f w)) -> keeps R (modify f).
Proof using Type. intros H w. apply H. Qed.

Lemma keeps_getThis : keeps R getThis.
Proof using R_refl. intros w. apply R_refl. Qed.

Lemma keeps_get : keeps R get.
Proof using R_refl. intros w. apply R_refl. Qed.

Lemma keeps_getEntity (r : eref) : keeps R (getEntity r).
Proof using R_refl.
  intros w. unfold getEntity. destruct (ents w !! r); apply R_refl.
Qed.

Lemma keeps_getNode (n : nref) : keeps R (getNode n).
Proof using R_refl.
  intros w. unfold getNode. destruct (nodes w !! n); apply R_refl.
Qed.

Lemma keeps_getColl (c : cref) : keeps R (getColl c).
Proof using R_refl.
  intros w. unfold getColl. destruct (colls w !! c); apply R_refl.
Qed.

Lemma keeps_modEntity (r : eref) (f : Entity -> Entity) :
  (forall w, R w (with_ents (alter f r (ents w)) w)) -> keeps R (modEntity r f).
Proof using R_refl R_trans.
  intros H. apply keeps_bind; [apply keeps_getEntity|].
  intros _. apply keeps_modify. exact H.
Qed.

Lemma keeps_modNode (n : nref) (f : QuadNode -> QuadNode) :
  (forall w, R w (with_nodes (alter f n (nodes w)) w)) -> keeps R (modNode n f).
Proof using R_refl R_trans.
  intros H. apply keeps_bind; [apply keeps_getNode|].
  intros _. apply keeps_modify. exact H.
Qed.

Lemma keeps_modColl (c : cref) (f : EntityCollection -> EntityCollection) :
  (forall w, R w (with_colls (alter f c (colls w)) w)) -> keeps R (modColl c f).
Proof using R_refl R_trans.
  intros H. apply keeps_bind; [apply keeps_getColl|].
  intros _. apply keeps_modify. exact H.
Qed.

End Keeps.

Section Bound.
Context `{C : Collaborators}.

Lemma whilePendings_loop_sched (q : list nref) :
  keeps sched_same (whilePendings_loop q).
Proof.
  induction q as [|n q IH]; cbn [whilePendings_loop].
  - apply (keeps_ret sched_same_refl).
  - apply (keeps_bind sched_same_trans); [apply (keeps_getThis sched_same_refl)|].
    intros l. destruct (QueueArray_pop _) as [[node|] rest].
    + apply (keeps_bind sched_same_trans).
      { apply keeps_modify. intros w. repeat split. }
      intros _. apply (keeps_bind sched_same_trans).
      { apply (keeps_modNode sched_same_refl sched_same_trans).
        intros w. repeat split. }
      intros _. apply (keeps_bind sched_same_trans);
        [apply (keeps_getThis sched_same_refl)|].
      intros l'. destruct (isVisible _ _); [apply (keeps_ret sched_same_refl)|].
      exact IH.
    + apply (keeps_ret sched_same_refl).
Qed.

Lemma whilePendings_sched : keeps sched_same _whilePendings.
Proof.
  apply (keeps_bind sched_same_trans); [apply (keeps_getThis sched_same_refl)|].
  intros l. apply whilePendings_loop_sched.
Qed.

Lemma setCollectionOf_sched (c : cref) (rs : list eref) :
  keeps sched_same (setCollectionOf c rs).
Proof.
  induction rs as [|r rs IH]; cbn [setCollectionOf].
  - apply (keeps_ret sched_same_refl).
  - apply (keeps_bind sched_same_trans); [|intros _; exact IH].
    apply (keeps_modEntity sched_same_refl sched_same_trans).
    intros w. repeat split.
Qed.

Lemma applyCollection_sched (n : nref) : keeps sched_same (applyCollection n).
Proof.
  unfold applyCollection.
  apply (keeps_bind sched_same_trans); [apply (keeps_getNode sched_same_refl)|].
  intros q. apply (keeps_bind sched_same_trans).
  { intros w. repeat split. }
  intros c. apply (keeps_bind sched_same_trans).
  { apply (keeps_modColl sched_same_refl sched_same_trans). intros w. repeat split. }
  intros _. apply (keeps_bind sched_same_trans); [apply setCollectionOf_sched|].
  intros _. apply (keeps_modNode sched_same_refl sched_same_trans).
  intros w. repeat split.
Qed.

Lemma sched_inv_same (w w' : World) :
  sched_same w w' -> sched_inv w -> sched_inv w'.
Proof.
  intros (a & b & c) (H1 & H2 & H3). unfold sched_inv.
  rewrite a, b, c. auto.
Qed.

(** [_execDeferredNode] with nothing in flight. *)
Lemma execDeferredNode_idle (n : nref) (w : World) :
  _counter (this w) = 0%Z -> timers w = [] ->
  Forall (fun v => (v <= 1)%Z) (counterTrace w) ->
  exists w', _execDeferredNode n w = Done tt w' /\ sched_inv w'.
Proof.
  intros Hc Ht Htr. eexists. split; [reflexivity|].
  unfold sched_inv. cbn. rewrite Hc, Ht. cbn.
  repeat split; try lia. apply Forall_app. split; [exact Htr|].
  repeat constructor. lia.
Qed.

Lemma queueDeferredNode_inv (n : nref) (w : World) :
  sched_inv w -> sched_inv (state_after (_queueDeferredNode n w) w).
Proof.
  intros Hinv. unfold _queueDeferredNode.
  unfold bind at 1. unfold getThis at 1.
  destruct (_visibility (this w)); [|exact Hinv].
  unfold bind at 1. unfold modNode, bind, getNode.
  destruct (nodes w !! n) as [q|]; [|exact Hinv].
  cbn [modify this with_nodes].
  destruct Hinv as (Hc & Ht & Htr).
  destruct (Z.geb_spec (_counter (this w)) 1) as [Hge|Hlt].
  - refine (sched_inv_same w _ _ (conj Hc (conj Ht Htr))). repeat split.
  - destruct (execDeferredNode_idle n
                (with_nodes (alter (node_set_inTheQueue true) n (nodes w)) w))
      as (w' & Hrun & Hinv'); cbn [this with_nodes timers counterTrace].
    + lia.
    + destruct (timers w); [reflexivity|]. cbn in Ht. lia.
    + exact Htr.
    + rewrite Hrun. exact Hinv'.
Qed.

Lemma dequeueRequest_inv (w : World) :
  _counter (this w) = 1%Z -> timers w = [] ->
  Forall (fun v => (v <= 1)%Z) (counterTrace w) ->
  sched_inv (state_after (_dequeueRequest w) w).
Proof.
  intros Hc Ht Htr.
  assert (Hinv0 : sched_inv w).
  { unfold sched_inv. rewrite Hc, Ht. cbn. repeat split; try lia. exact Htr. }
  unfold _dequeueRequest.
  unfold bind at 1. unfold getThis at 1.
  set (w1 := with_counterTrace (counterTrace w ++ [(_counter (this w) - 1)%Z])
               (with_this (set_counter (_counter (this w) - 1) (this w)) w)).
  assert (Hrun1 : assignCounter (_counter (this w) - 1) w = Done tt w1)
    by reflexivity.
  rewrite (bind_Done _ _ _ _ _ Hrun1).
  assert (Hc1 : _counter (this w1) = 0%Z) by (cbn; lia).
  assert (Ht1 : timers w1 = []) by exact Ht.
  assert (Htr1 : Forall (fun v => (v <= 1)%Z) (counterTrace w1)).
  { cbn. apply Forall_app. split; [exact Htr|]. repeat constructor. lia. }
  assert (Hinv1 : sched_inv w1).
  { unfold sched_inv. rewrite Hc1, Ht1. cbn. repeat split; try lia. exact Htr1. }
  clearbody w1. clear Hrun1.
  unfold bind at 1. unfold getThis at 1.
  destruct (negb _ && _); [|exact Hinv1].
  unfold bind. pose proof (whilePendings_sched w1) as Hk.
  destruct (_whilePendings w1) as [[node|] w2|e w2|].
  - destruct Hk as (a & b & c).
    destruct (execDeferredNode_idle node w2) as (w' & Hrun & Hinv');
      [congruence|congruence|congruence|].
    rewrite Hrun. exact Hinv'.
  - exact (sched_inv_same _ _ Hk Hinv1).
  - exact (sched_inv_same _ _ Hk Hinv1).
  - exact Hinv0.
Qed.

Lemma timerCallback_inv (n : nref) (w : World) :
  _counter (this w) = 1%Z -> timers w = [] ->
  Forall (fun v => (v <= 1)%Z) (counterTrace w) ->
  sched_inv (state_after (timerCallback n w) w).
Proof.
  intros Hc Ht Htr. unfold timerCallback, bind.
  assert (Hinv : sched_inv w).
  { unfold sched_inv. rewrite Hc, Ht. cbn. repeat split; try lia. exact Htr. }
  pose proof (applyCollection_sched n w) as Hk.
  destruct (applyCollection n w) as [[] w1|e w1|].
  - destruct Hk as (a & b & c).
    pose proof (dequeueRequest_inv w1) as Hd.
    rewrite a, b, c in Hd. specialize (Hd Hc Ht Htr).
    destruct (_dequeueRequest w1); [exact Hd|exact Hd|exact Hinv].
  - exact (sched_inv_same _ _ Hk Hinv).
  - exact Hinv.
Qed.

Lemma sched_step_inv (w w' : World) :
  sched_step w w' -> sched_inv w -> sched_inv w'.
Proof.
  intros Hstep Hinv. destruct Hstep as [n w|n rest w Hfire|w w' a b c].
  - apply queueDeferredNode_inv. exact Hinv.
  - destruct Hinv as (Hc & Ht & Htr). rewrite Hfire in Ht. cbn in Ht.
    assert (Hone : _counter (this w) = 1%Z) by lia.
    assert (Hrest : rest = []).
    { destruct rest; [reflexivity|]. cbn in Ht. lia. }
    apply timerCallback_inv; [exact Hone|exact Hrest|exact Htr].
  - exact (sched_inv_same w w' (conj a (conj b c)) Hinv).
Qed.

(** C5: from a scheduler as the constructor leaves it, after any sequence of
    [_queueDeferredNode] calls, timer callbacks ([applyCollection] followed
    by [_dequeueRequest], with the [_execDeferredNode] calls both make) and
    other steps that leave the counter alone, the counter of in-flight
    builds is at most 1, no more timers are pending than the counter says,
    and no value above 1 was ever assigned to the counter on the way. *)
Theorem scheduler_at_most_one_in_flight (w0 w : World) :
  sched_init w0 ->
  rtc sched_step w0 w ->
  (_counter (this w) <= 1)%Z /\
  (Z.of_nat (length (timers w)) <= _counter (this w))%Z /\
  Forall (fun v => (v <= 1)%Z) (counterTrace w).
Proof.
  intros (Hc & Ht & Htr) Hsteps.
  assert (Hinv : sched_inv w).
  { apply (rtc_ind_r (R := sched_step) (fun w => sched_inv w) w0);
      [|clear|exact Hsteps].
    - unfold sched_inv. rewrite Hc, Ht, Htr. cbn. repeat split; try lia.
      constructor.
    - intros w1 w2 _ Hstep IH. exact (sched_step_inv w1 w2 Hstep IH). }
  destruct Hinv as ((_ & H1) & H2 & H3). auto.
Qed.

End Bound.

(** ** Removing an entity *)

Lemma removeEntity_skips (E : eref) (e : Entity) (w : World) :
  ents w !! E = Some e ->
  _vectorLayer e <> Some (_id (this w)) ->
  removeEntity E w = Done tt w.
Proof.
  intros HE Hown. unfold removeEntity.
  rewrite (bind_Done _ _ _ _ _ (getEntity_Done _ _ _ HE)).
  unfold bind at 1. unfold getThis at 1.
  rewrite (bool_decide_eq_false_2 _ Hown), andb_false_r. reflexivity.
Qed.

(** X1: [removeEntity] on an entity that does not name this layer as its owner
    (no owner, or another layer) returns with the store as it was: nothing
    is spliced, nothing reindexed, and no entityremove event is
    dispatched. *)
Theorem removeEntity_foreign_is_noop (E : eref) (e : Entity) (w : World) :
  ents w !! E = Some e ->
  _vectorLayer e <> Some (_id (this w)) ->
  removeEntity E w = Done tt w.
Proof.
  intros HE Hown. unfold removeEntity.
  rewrite (bind_Done _ _ _ _ _ (getEntity_Done _ _ _ HE)).
  unfold bind at 1. unfold getThis at 1.
  destruct (_vectorLayer e) as [v|]; [|reflexivity].
  cbn [truthy andb]. rewrite bool_decide_eq_false_2 by exact Hown.
  reflexivity.
Qed.

Example removeEntity_foreign_is_noop_witness :
  ents (looseLayer [set_vectorLayer (Some 2%nat) (pointEntity 7 10 20)]) !! 0%nat
    = Some (set_vectorLayer (Some 2%nat) (pointEntity 7 10 20)) /\
  removeEntity 0 (looseLayer [set_vectorLayer (Some 2%nat) (pointEntity 7 10 20)])
    = Done tt (looseLayer [set_vectorLayer (Some 2%nat) (pointEntity 7 10 20)]).
Proof.
  split; [reflexivity|].
  apply (removeEntity_foreign_is_noop 0
           (set_vectorLayer (Some 2%nat) (pointEntity 7 10 20))).
  - reflexivity.
  - discriminate.
Defined.

(** *** The ownership marks *)

Lemma marks_kept_refl (w : World) : marks_kept w w.
Proof. repeat split. Qed.

Lemma marks_kept_trans (w1 w2 w3 : World) :
  marks_kept w1 w2 -> marks_kept w2 w3 -> marks_kept w1 w3.
Proof.
  intros (a & b & c) (a' & b' & c'). repeat split; congruence.
Qed.

Lemma alter_marks (f : Entity -> Entity) (r r' : eref) (h : list Entity) :
  (forall e, marks (f e) = marks e) ->
  marks <$> alter f r h !! r' = marks <$> h !! r'.
Proof.
  intros Hf. destruct (decide (r = r')) as [->|Hne].
  - rewrite list_lookup_alter_eq. destruct (h !! r') as [e|]; [|reflexivity].
    cbn. rewrite Hf. reflexivity.
  - rewrite list_lookup_alter_ne by exact Hne. reflexivity.
Qed.

Lemma indexed_marks_kept (w w' : World) :
  indexed w -> marks_kept w w' -> indexed w'.
Proof.
  intros Hidx (Hl & Hid & Hm) i r Hr. rewrite Hl in Hr.
  destruct (Hidx i r Hr) as (e & He & Hown & Hi).
  specialize (Hm r). rewrite He in Hm. cbn in Hm.
  destruct (ents w' !! r) as [e'|]; [|discriminate].
  cbn in Hm. injection Hm as Hv Hx.
  exists e'. rewrite Hid. repeat split; congruence.
Qed.

Lemma keeps_marks_modEntity (r : eref) (f : Entity -> Entity) :
  (forall e, marks (f e) = marks e) -> keeps marks_kept (modEntity r f).
Proof.
  intros Hf. apply (keeps_modEntity marks_kept_refl marks_kept_trans).
  intros w. repeat split. intros r'. apply alter_marks. exact Hf.
Qed.

Lemma keeps_marks_modNode (n : nref) (f : QuadNode -> QuadNode) :
  keeps marks_kept (modNode n f).
Proof.
  apply (keeps_modNode marks_kept_refl marks_kept_trans).
  intros w. repeat split.
Qed.

Lemma keeps_marks_modColl (c : cref) (f : EntityCollection -> EntityCollection) :
  keeps marks_kept (modColl c f).
Proof.
  apply (keeps_modColl marks_kept_refl marks_kept_trans).
  intros w. repeat split.
Qed.

Lemma decCounts_marks (fuel : nat) :
  forall node, keeps marks_kept (decCounts fuel node).
Proof.
  induction fuel as [|fuel IH]; intros [n|]; cbn [decCounts];
    try apply (keeps_ret marks_kept_refl).
  - apply (keeps_bind marks_kept_trans); [apply (keeps_get marks_kept_refl)|].
    intros w. destruct (nodes w !! n); [|apply (keeps_ret marks_kept_refl)].
    intros w'. exact I.
  - apply (keeps_bind marks_kept_trans); [apply (keeps_get marks_kept_refl)|].
    intros w. destruct (nodes w !! n) as [q|]; [|apply (keeps_ret marks_kept_refl)].
    apply (keeps_bind marks_kept_trans); [apply keeps_marks_modNode|].
    intros _. apply IH.
Qed.

Lemma decAncestors_marks (node : option nref) :
  keeps marks_kept (decAncestors node).
Proof.
  apply (keeps_bind marks_kept_trans); [apply (keeps_get marks_kept_refl)|].
  intros w. apply decCounts_marks.
Qed.

Lemma scanDeferred_marks (j : nat) (n : nref) (E : eref) :
  keeps marks_kept (scanDeferred j n E).
Proof.
  induction j as [|j IH]; cbn [scanDeferred].
  - apply (keeps_ret marks_kept_refl).
  - apply (keeps_bind marks_kept_trans); [apply (keeps_getNode marks_kept_refl)|].
    intros q. destruct (deferredEntities q !! j) as [r|];
      [|apply (keeps_throw marks_kept_refl)].
    apply (keeps_bind marks_kept_trans); [apply (keeps_getEntity marks_kept_refl)|].
    intros d.
    apply (keeps_bind marks_kept_trans); [apply (keeps_getEntity marks_kept_refl)|].
    intros e. destruct (Nat.eqb (id d) (id e)); [|exact IH].
    apply (keeps_bind marks_kept_trans); [apply keeps_marks_modNode|].
    intros _. apply decAncestors_marks.
Qed.

Lemma removeEntitySilent_marks (c : cref) (E : eref) :
  keeps marks_kept (_removeEntitySilent c E).
Proof.
  apply (keeps_bind marks_kept_trans); [apply keeps_marks_modColl|].
  intros _. apply keeps_marks_modEntity. intros e. reflexivity.
Qed.

Lemma dispatch_marks (ev : EventName) (E : eref) :
  keeps marks_kept (dispatch ev E).
Proof. apply keeps_modify. intros w. repeat split. Qed.

(** What [removeEntity] does once the entity is off the flat list. *)
Lemma removeEntity_tail_marks (E : eref) :
  keeps marks_kept (removeEntity_rest E).
Proof.
  unfold removeEntity_rest.
  apply (keeps_bind marks_kept_trans).
  { apply (keeps_bind marks_kept_trans); [apply (keeps_getEntity marks_kept_refl)|].
    intros e1. destruct (_entityCollection e1) as [c|].
    - apply (keeps_bind marks_kept_trans); [apply removeEntitySilent_marks|].
      intros _. apply (keeps_bind marks_kept_trans);
        [apply (keeps_getEntity marks_kept_refl)|].
      intros e2. apply (keeps_bind marks_kept_trans); [apply decAncestors_marks|].
      intros _. destruct (_nodePtr e2) as [n|]; [|apply (keeps_ret marks_kept_refl)].
      apply (keeps_bind marks_kept_trans); [apply (keeps_getNode marks_kept_refl)|].
      intros q. destruct (_ && _); [apply keeps_marks_modNode|].
      apply (keeps_ret marks_kept_refl).
    - destruct (_nodePtr e1) as [n|]; [|apply (keeps_ret marks_kept_refl)].
      apply (keeps_bind marks_kept_trans); [apply (keeps_getNode marks_kept_refl)|].
      intros q. destruct (negb _); [apply scanDeferred_marks|].
      apply (keeps_ret marks_kept_refl). }
  intros _. apply (keeps_bind marks_kept_trans); [|intros _; apply dispatch_marks].
  apply (keeps_bind marks_kept_trans); [apply (keeps_getEntity marks_kept_refl)|].
  intros e3. destruct (truthy _); [|apply (keeps_ret marks_kept_refl)].
  apply keeps_marks_modEntity. intros e. reflexivity.
Qed.

(** *** Reindexing *)

Lemma reindexed_live (rs : list eref) :
  forall (i : Z) (h : list Entity) (r : eref),
    is_Some (h !! r) -> is_Some (reindexed i rs h !! r).
Proof.
  induction rs as [|r0 rs IH]; intros i h r Hr; cbn [reindexed]; [exact Hr|].
  apply IH. rewrite list_lookup_alter.
  destruct (decide (r0 = r)) as [->|]; [|exact Hr].
  destruct Hr as [e ->]. eauto.
Qed.

Lemma reindexFrom_Done (rs : list eref) :
  forall (i : Z) (w : World),
    Forall (fun r => is_Some (ents w !! r)) rs ->
    reindexFrom i rs w = Done tt (with_ents (reindexed i rs (ents w)) w).
Proof.
  induction rs as [|r rs IH]; intros i w Hlive; cbn [reindexFrom reindexed].
  - destruct w. reflexivity.
  - destruct (Forall_inv Hlive) as [e He]. apply Forall_inv_tail in Hlive.
    rewrite (bind_Done _ _ _ _ _ (modEntity_Done _ _ _ _ He)).
    rewrite IH; [reflexivity|].
    eapply List.Forall_impl; [|exact Hlive]. intros r' Hr'. cbn [ents with_ents].
    rewrite list_lookup_alter. destruct (decide (r = r')) as [->|]; [|exact Hr'].
    rewrite He. eauto.
Qed.

Lemma reindexed_other (rs : list eref) :
  forall (i : Z) (h : list Entity) (r : eref),
    r ∉ rs -> reindexed i rs h !! r = h !! r.
Proof.
  induction rs as [|r0 rs IH]; intros i h r Hr; cbn [reindexed]; [reflexivity|].
  apply not_elem_of_cons in Hr as [Hne Hr].
  rewrite IH by exact Hr. apply list_lookup_alter_ne. congruence.
Qed.

Lemma reindexed_at (rs : list eref) :
  forall (i : Z) (h : list Entity) (k : nat) (r : eref),
    NoDup rs -> rs !! k = Some r ->
    reindexed i rs h !! r =
      set_vectorLayerIndex (i + Z.of_nat k) <$> h !! r.
Proof.
  induction rs as [|r0 rs IH]; intros i h k r Hnd Hk; [discriminate|].
  apply NoDup_cons in Hnd as [Hr0 Hnd]. cbn [reindexed].
  destruct k as [|k].
  - injection Hk as ->. rewrite reindexed_other by exact Hr0.
    rewrite list_lookup_alter_eq. replace (i + Z.of_nat 0)%Z with i by lia.
    reflexivity.
  - cbn in Hk. rewrite (IH _ _ k r Hnd Hk).
    assert (Hne : r0 <> r).
    { intros ->. apply Hr0. eapply list_elem_of_lookup_2. exact Hk. }
    rewrite list_lookup_alter_ne by exact Hne.
    replace (i + 1 + Z.of_nat k)%Z with (i + Z.of_nat (S k))%Z by lia.
    reflexivity.
Qed.

Lemma indexed_NoDup (w : World) : indexed w -> NoDup (_entities (this w)).
Proof.
  intros Hidx. apply NoDup_alt. intros i j r Hi Hj.
  destruct (Hidx i r Hi) as (e & He & _ & Hx).
  destruct (Hidx j r Hj) as (e' & He' & _ & Hx').
  rewrite He in He'. injection He' as <-. lia.
Qed.

Lemma splice1_at {A} (i : nat) (l : list A) :
  i < length l -> splice1 (Z.of_nat i) l = delete i l.
Proof.
  intros Hi. unfold splice1.
  destruct (Z.ltb_spec (Z.of_nat i) 0) as [Hneg|_]; [lia|].
  rewrite Z.min_l by lia. rewrite Nat2Z.id. reflexivity.
Qed.

Lemma drop_delete_same {A} (i : nat) (l : list A) :
  i < length l -> drop i (delete i l) = drop (S i) l.
Proof.
  intros Hi. rewrite delete_take_drop.
  rewrite drop_app_ge by (rewrite length_take_le; lia).
  rewrite length_take_le by lia. rewrite Nat.sub_diag. reflexivity.
Qed.

Lemma leaves_of_keeps {A} (R : World -> World -> Prop) (P : World -> Prop)
    (m : M A) (w : World) :
  keeps R m -> (forall w', R w w' -> P w') -> leaves (m w) P.
Proof.
  intros Hk HP. specialize (Hk w). unfold leaves.
  destruct (m w); auto.
Qed.

(** The links of an entity into the trees. *)
Lemma alter_links (f : Entity -> Entity) (r r' : eref) (h : list Entity) :
  (forall e, links (f e) = links e) ->
  links <$> alter f r h !! r' = links <$> h !! r'.
Proof.
  intros Hf. destruct (decide (r = r')) as [->|Hne].
  - rewrite list_lookup_alter_eq. destruct (h !! r') as [e|]; [|reflexivity].
    cbn. rewrite Hf. reflexivity.
  - rewrite list_lookup_alter_ne by exact Hne. reflexivity.
Qed.

Lemma reindexed_links (rs : list eref) :
  forall (i : Z) (h : list Entity) (r : eref),
    links <$> reindexed i rs h !! r = links <$> h !! r.
Proof.
  induction rs as [|r0 rs IH]; intros i h r; cbn [reindexed]; [reflexivity|].
  rewrite IH. apply alter_links. intros e. reflexivity.
Qed.

(** The first part of [removeEntity] on the entity at position [i] of a
    flat list whose stored indices are right: the entity is spliced out,
    the entities behind it are renumbered and the entity is released. *)
Lemma removeEntity_unlisted (E : eref) (i : nat) (e : Entity) (w : World) :
  indexed w ->
  _entities (this w) !! i = Some E ->
  ents w !! E = Some e ->
  exists wR,
    removeEntity E w = removeEntity_rest E wR /\
    this wR = set_entities (delete i (_entities (this w))) (this w) /\
    nodes wR = nodes w /\ colls wR = colls w /\
    dispatched wR = dispatched w /\
    ents wR !! E = Some (released e) /\
    indexed wR /\
    (forall r, links <$> ents wR !! r = links <$> ents w !! r).
Proof.
  intros Hidx HiE HE.
  pose proof (indexed_NoDup w Hidx) as Hnd.
  destruct (Hidx i E HiE) as (e' & HE' & Hown & Hx).
  rewrite HE in HE'. injection HE' as <-.
  assert (Hlt : i < length (_entities (this w)))
    by (apply lookup_lt_is_Some; eauto).
  unfold removeEntity.
  rewrite (bind_Done _ _ _ _ _ (getEntity_Done _ _ _ HE)).
  unfold bind at 1. unfold getThis at 1.
  rewrite Hown. cbn [truthy andb].
  rewrite bool_decide_eq_true_2 by reflexivity.
  unfold bind at 1. unfold modThis, modify at 1.
  rewrite Hx, (splice1_at i _ Hlt).
  set (l := _entities (this w)) in *.
  set (w1 := with_this (set_entities (delete i l) (this w)) w).
  set (h2 := reindexed (Z.of_nat i) (drop (S i) l) (ents w)).
  assert (Hlive : Forall (fun r => is_Some (ents w1 !! r)) (drop (S i) l)).
  { apply Forall_forall. intros r Hr. apply list_elem_of_lookup in Hr as [k Hk].
    rewrite lookup_drop in Hk. destruct (Hidx _ r Hk) as (er & Her & _).
    cbn. eauto. }
  assert (Hrun2 : _reindexEntitiesArray (Z.of_nat i) w1 = Done tt (with_ents h2 w1)).
  { unfold _reindexEntitiesArray, bind, getThis.
    destruct (Z.ltb_spec (Z.of_nat i) 0) as [Hneg|_]; [lia|].
    rewrite Nat2Z.id. cbn [_entities this with_this w1 set_entities].
    rewrite (drop_delete_same i l Hlt).
    exact (reindexFrom_Done _ _ w1 Hlive). }
  rewrite (bind_Done _ _ _ _ _ Hrun2).
  assert (HnotE : E ∉ drop (S i) l).
  { intros Hin. apply list_elem_of_lookup in Hin as [k Hk].
    rewrite lookup_drop in Hk.
    pose proof (proj1 (NoDup_alt l) Hnd _ _ _ HiE Hk). lia. }
  assert (HE2 : h2 !! E = Some e).
  { unfold h2. rewrite reindexed_other by exact HnotE. exact HE. }
  erewrite bind_Done; [|eapply modEntity_Done; exact HE2].
  erewrite bind_Done;
    [|eapply modEntity_Done; cbn [ents with_ents];
      rewrite list_lookup_alter_eq, HE2; reflexivity].
  cbn [ents with_ents].
  set (hR := alter (set_vectorLayerIndex (-1)) E (alter (set_vectorLayer None) E h2)).
  set (wR := with_ents hR (with_ents (alter (set_vectorLayer None) E h2)
                             (with_ents h2 w1))).
  assert (HER : hR !! E = Some (released e)).
  { unfold hR. rewrite !list_lookup_alter_eq, HE2. reflexivity. }
  assert (HidxR : indexed wR).
  { intros k r Hk. cbn [wR w1 _entities this with_ents with_this set_entities] in Hk.
    assert (Hne : r <> E).
    { intros ->. rewrite list_lookup_delete in Hk.
      destruct (decide (k < i)) as [Hki|Hki];
        pose proof (proj1 (NoDup_alt l) Hnd _ _ _ HiE Hk); lia. }
    cbn [wR ents with_ents this with_this w1 _id set_entities].
    unfold hR. rewrite !list_lookup_alter_ne by congruence. unfold h2.
    destruct (decide (k < i)) as [Hki|Hki].
    - rewrite list_lookup_delete_lt in Hk by exact Hki.
      destruct (Hidx k r Hk) as (er & Her & Hownr & Hxr).
      rewrite reindexed_other.
      + exists er. repeat split; assumption.
      + intros Hin. apply list_elem_of_lookup in Hin as [k' Hk'].
        rewrite lookup_drop in Hk'.
        pose proof (proj1 (NoDup_alt l) Hnd _ _ _ Hk Hk'). lia.
    - rewrite list_lookup_delete_ge in Hk by lia.
      destruct (Hidx (S k) r Hk) as (er & Her & Hownr & Hxr).
      rewrite (reindexed_at _ _ _ (k - i) r).
      + rewrite Her. eexists. split; [reflexivity|]. split; [exact Hownr|].
        cbn. lia.
      + exact (sublist_NoDup _ _ Hnd (sublist_drop l (S i))).
      + rewrite lookup_drop. replace (S i + (k - i)) with (S k) by lia. exact Hk. }
  exists wR. split; [reflexivity|].
  split; [reflexivity|]. split; [reflexivity|]. split; [reflexivity|].
  split; [reflexivity|]. split; [exact HER|]. split; [exact HidxR|].
  intros r. cbn [wR ents with_ents]. unfold hR.
  rewrite !alter_links by (intros x; reflexivity).
  unfold h2. apply reindexed_links.
Qed.

(** X2: [removeEntity] on the entity at position [i] of a flat list whose
    stored indices are right: whether the call returns or throws further
    on, the flat list it leaves is the one without position [i], the stored
    indices are right again, and the entity names no layer and stores -1. *)
Theorem removeEntity_keeps_indices (E : eref) (i : nat) (w : World) :
  indexed w ->
  _entities (this w) !! i = Some E ->
  leaves (removeEntity E w) (fun w' =>
    _entities (this w') = delete i (_entities (this w)) /\
    indexed w' /\
    marks <$> ents w' !! E = Some (None, (-1)%Z)).
Proof.
  intros Hidx HiE.
  destruct (Hidx i E HiE) as (e & HE & _).
  destruct (removeEntity_unlisted E i e w Hidx HiE HE)
    as (wR & Hrun & Ht & _ & _ & _ & HER & HidxR & _).
  rewrite Hrun.
  apply (leaves_of_keeps marks_kept _ _ wR (removeEntity_tail_marks E)).
  intros w' Hkept. split; [|split].
  - destruct Hkept as (-> & _). rewrite Ht. reflexivity.
  - exact (indexed_marks_kept wR w' HidxR Hkept).
  - destruct Hkept as (_ & _ & Hm). rewrite Hm, HER. reflexivity.
Qed.

Example removeEntity_keeps_indices_witness :
  indexed filledLayer /\
  leaves (removeEntity 1 filledLayer) (fun w' =>
    _entities (this w') = delete 1%nat (_entities (this filledLayer)) /\
    indexed w' /\
    marks <$> ents w' !! 1%nat = Some (None, (-1)%Z)).
Proof.
  assert (Hidx : indexed filledLayer).
  { intros i r Hr. vm_compute in Hr.
    destruct i as [|[|[|i]]]; try discriminate;
      injection Hr as <-; eexists; vm_compute; repeat split. }
  split; [exact Hidx|].
  exact (removeEntity_keeps_indices 1 1 filledLayer Hidx eq_refl).
Defined.

(** *** Adding keeps the indices right *)

Section AddMarks.
Context `{C : Collaborators}.

Lemma fitExtent_marks (E : eref) : keeps marks_kept (_fitExtent E).
Proof.
  unfold _fitExtent.
  apply (keeps_bind marks_kept_trans); [apply (keeps_getEntity marks_kept_refl)|].
  intros e. destruct (_lonlat e) as [ll|]; [|apply (keeps_throw marks_kept_refl)].
  repeat (apply (keeps_bind marks_kept_trans); [|intros _]);
    (apply (keeps_bind marks_kept_trans); [apply (keeps_getThis marks_kept_refl)|];
     intros l; match goal with |- context [if ?b then _ else _] => destruct b end;
     [apply keeps_modify; intros w; repeat split
     |apply (keeps_ret marks_kept_refl)]).
Qed.

Lemma EntityCollection_add_marks (c : cref) (E : eref) :
  keeps marks_kept (EntityCollection_add c E).
Proof.
  apply (keeps_bind marks_kept_trans); [apply keeps_marks_modColl|].
  intros _. apply keeps_marks_modEntity. intros e. reflexivity.
Qed.

Lemma onRoot_marks (root : option nref) (f : nref -> World -> World) :
  (forall n w, marks_kept w (f n w)) -> keeps marks_kept (onRoot root f).
Proof.
  intros Hf. destruct root as [n|]; cbn [onRoot].
  - apply keeps_modify. apply Hf.
  - apply (keeps_throw marks_kept_refl).
Qed.

(** What [add] does once it has taken the entity. *)
Lemma add_tail_marks (E : eref) (e : Entity) (rightNow : bool) (c : cref)
    (attached_now : bool) :
  (forall n r b w, marks_kept w (insertEntity n r b w)) ->
  keeps marks_kept
    ((if lineString e then EntityCollection_add c E
      else if attached_now then
        (e1 <- getEntity E ;;
         if negb (truthy (_lonlat e1)) then throw TypeError else ret tt) ;;;
        _fitExtent E ;;;
        e2 <- getEntity E ;;
        l2 <- getThis ;;
        match _lonlat e2 with
        | None => throw TypeError
        | Some ll =>
            if js_gt (lat ll) MAX_LAT then
              onRoot (_entityCollectionsTreeNorth l2)
                (fun n => insertEntity n E rightNow)
            else if js_lt (lat ll) MIN_LAT then
              onRoot (_entityCollectionsTreeSouth l2)
                (fun n => insertEntity n E rightNow)
            else
              onRoot (_entityCollectionsTree l2)
                (fun n => insertEntity n E rightNow)
        end
      else ret tt) ;;;
     dispatch entityadd E).
Proof.
  intros Hins.
  apply (keeps_bind marks_kept_trans); [|intros _; apply dispatch_marks].
  destruct (lineString e); [apply EntityCollection_add_marks|].
  destruct attached_now; [|apply (keeps_ret marks_kept_refl)].
  apply (keeps_bind marks_kept_trans).
  { apply (keeps_bind marks_kept_trans); [apply (keeps_getEntity marks_kept_refl)|].
    intros e1. destruct (negb _);
      [apply (keeps_throw marks_kept_refl)|apply (keeps_ret marks_kept_refl)]. }
  intros _. apply (keeps_bind marks_kept_trans); [apply fitExtent_marks|].
  intros _. apply (keeps_bind marks_kept_trans);
    [apply (keeps_getEntity marks_kept_refl)|].
  intros e2. apply (keeps_bind marks_kept_trans);
    [apply (keeps_getThis marks_kept_refl)|].
  intros l2. destruct (_lonlat e2) as [ll|]; [|apply (keeps_throw marks_kept_refl)].
  destruct (js_gt _ _); [apply onRoot_marks; intros n w; apply Hins|].
  destruct (js_lt _ _); apply onRoot_marks; intros n w; apply Hins.
Qed.

Lemma taken_indexed (E : eref) (e : Entity) (w : World) :
  ents w !! E = Some e -> unowned e -> indexed w -> indexed (taken E w).
Proof.
  intros HE [Hv _] Hidx i r Hr.
  cbn [taken _entities this with_this with_ents set_entities] in Hr.
  cbn [taken ents with_ents with_this this _id set_entities].
  destruct (decide (i < length (_entities (this w)))) as [Hi|Hi].
  - rewrite lookup_app_l in Hr by exact Hi.
    destruct (Hidx i r Hr) as (er & Her & Hown & Hx).
    assert (Hne : E <> r) by (intros ->; congruence).
    rewrite !list_lookup_alter_ne by exact Hne. eauto.
  - rewrite lookup_app_r in Hr by lia.
    destruct (i - length (_entities (this w))) as [|k] eqn:Hk; [|destruct k; discriminate].
    injection Hr as <-. rewrite !list_lookup_alter_eq, HE.
    eexists. split; [reflexivity|]. split; [reflexivity|]. cbn. f_equal. lia.
Qed.

(** X3: [add], whatever the entity and whether the call returns or throws,
    leaves the stored indices right when they were, provided [insertEntity]
    does not touch the flat list and the ownership marks; and an entity that
    nobody owned is then the last one of the flat list. *)
Theorem add_keeps_indices (E : eref) (rightNow : bool) (w : World) :
  (forall n r b w0, marks_kept w0 (insertEntity n r b w0)) ->
  indexed w ->
  leaves (add E rightNow w) (fun w' =>
    indexed w' /\
    (forall e, ents w !! E = Some e -> unowned e ->
       _entities (this w') = _entities (this w) ++ [E])).
Proof.
  intros Hins Hidx.
  destruct (ents w !! E) as [e|] eqn:HE.
  - destruct (_vectorLayer e) as [v|] eqn:Hv.
    { unfold add. rewrite (bind_Done _ _ _ _ _ (getEntity_Done _ _ _ HE)), Hv.
      cbn. split; [exact Hidx|]. intros e' He' [Hv' _]. congruence. }
    destruct (_entityCollection e) as [c|] eqn:Hc.
    { unfold add. rewrite (bind_Done _ _ _ _ _ (getEntity_Done _ _ _ HE)), Hv, Hc.
      cbn. split; [exact Hidx|]. intros e' He' [_ Hc']. congruence. }
    rewrite (add_unowned E e rightNow w HE (conj Hv Hc)).
    apply (leaves_of_keeps marks_kept _ _ (taken E w)
             (add_tail_marks E e rightNow _ _ Hins)).
    intros w' Hkept. split.
    + apply (indexed_marks_kept (taken E w) w'); [|exact Hkept].
      exact (taken_indexed E e w HE (conj Hv Hc) Hidx).
    + intros _ _ _. destruct Hkept as (-> & _). reflexivity.
  - unfold add, bind, getEntity. rewrite HE. cbn.
    split; [exact Hidx|]. intros e He. discriminate.
Qed.

End AddMarks.

Lemma queueDeferredNode_marks (n : nref) : keeps marks_kept (_queueDeferredNode n).
Proof.
  unfold _queueDeferredNode.
  apply (keeps_bind marks_kept_trans); [apply (keeps_getThis marks_kept_refl)|].
  intros l. destruct (_visibility l); [|apply (keeps_ret marks_kept_refl)].
  apply (keeps_bind marks_kept_trans); [apply keeps_marks_modNode|].
  intros _. destruct (_ >=? _)%Z.
  - apply keeps_modify. intros w. repeat split.
  - unfold _execDeferredNode.
    apply (keeps_bind marks_kept_trans); [apply (keeps_getThis marks_kept_refl)|].
    intros l'. apply (keeps_bind marks_kept_trans).
    + apply (keeps_bind marks_kept_trans); [|intros _];
        apply keeps_modify; intros w; repeat split.
    + intros _. apply keeps_modify. intros w. repeat split.
Qed.

Lemma sample_insertEntity_marks (n : nref) (r : eref) (b : bool) (w : World) :
  marks_kept w (sample_insertEntity n r b w).
Proof.
  unfold sample_insertEntity.
  match goal with |- marks_kept _ (state_after (?m _) _) =>
    assert (Hk : keeps marks_kept m) end.
  { apply (keeps_bind marks_kept_trans); [apply keeps_marks_modNode|].
    intros _. apply (keeps_bind marks_kept_trans).
    { apply keeps_marks_modEntity. intros e. reflexivity. }
    intros _. apply (keeps_bind marks_kept_trans);
      [apply (keeps_getNode marks_kept_refl)|].
    intros q. destruct (_ || _); [apply (keeps_ret marks_kept_refl)|].
    apply queueDeferredNode_marks. }
  specialize (Hk w). cbv beta in Hk.
  match goal with |- marks_kept _ (state_after ?o _) => destruct o end;
    cbn [state_after]; [exact Hk|exact Hk|apply marks_kept_refl].
Qed.

Example add_keeps_indices_witness :
  indexed (attachedLayer threePoints) /\
  leaves (@add sampleCollaborators 1 false (attachedLayer threePoints))
    (fun w' =>
       indexed w' /\
       (forall e, ents (attachedLayer threePoints) !! 1%nat = Some e ->
                  unowned e ->
                  _entities (this w') =
                    _entities (this (attachedLayer threePoints)) ++ [1%nat])).
Proof.
  assert (Hidx : indexed (attachedLayer threePoints)).
  { intros i r Hr. vm_compute in Hr. destruct i; discriminate. }
  split; [exact Hidx|].
  exact (add_keeps_indices (C := sampleCollaborators) 1 false
           (attachedLayer threePoints) sample_insertEntity_marks Hidx).
Defined.

(** *** Adding and removing on a layer that is not attached *)

Section RoundTrip.
Context `{C : Collaborators}.

(** [add] on a layer without a planet, for a point entity nobody owns: the
    entity is taken and announced, no tree is involved. *)
Lemma add_point_loose (E : eref) (e : Entity) (rightNow : bool) (w : World) :
  _planet (this w) = None -> ents w !! E = Some e -> unowned e ->
  lineString e = false ->
  add E rightNow w = Done tt (announced entityadd E (taken E w)).
Proof.
  intros Hp HE Hun Hline.
  rewrite (add_unowned E e rightNow w HE Hun), Hline, Hp. reflexivity.
Qed.

(** X4: On a layer that is not attached, [add] followed by [removeEntity] of a
    fresh point entity returns and gives back the store it started from,
    but for the two events dispatched and the entity's stored index, which
    is -1: the flat list, the extent, the nodes and the collections are as
    before and the entity names no owner. *)
Theorem add_then_removeEntity_restores (E : eref) (e : Entity)
    (rightNow : bool) (w : World) :
  _planet (this w) = None -> ents w !! E = Some e -> unowned e ->
  lineString e = false -> _nodePtr e = None ->
  (add E rightNow ;;; removeEntity E) w =
    Done tt
      (with_dispatched
         (dispatched w ++ [(entityadd, E); (entityremove, E)])
         (with_ents (<[E := released e]> (ents w)) w)).
Proof.
  intros Hp HE Hun Hline Hnode.
  rewrite (bind_Done _ _ _ _ _ (add_point_loose E e rightNow w Hp HE Hun Hline)).
  pose proof (taken_lookup E e w HE) as HE1.
  set (len := length (_entities (this w))) in *.
  set (e1 := set_vectorLayerIndex (Z.of_nat len)
               (set_vectorLayer (Some (_id (this w))) e)) in *.
  unfold removeEntity.
  assert (HE1' : ents (announced entityadd E (taken E w)) !! E = Some e1)
    by exact HE1.
  rewrite (bind_Done _ _ _ _ _ (getEntity_Done _ _ _ HE1')).
  unfold bind at 1. unfold getThis at 1.
  cbn [e1 _vectorLayer set_vectorLayerIndex set_vectorLayer truthy andb
       _vectorLayerIndex].
  rewrite bool_decide_eq_true_2 by reflexivity.
  unfold bind at 1. unfold modThis, modify at 1.
  cbn [this announced with_dispatched taken with_this with_ents _entities
       set_entities].
  rewrite splice1_at by (rewrite length_app; cbn; lia).
  fold len.
  assert (Hdel : delete len (_entities (this w) ++ [E]) = _entities (this w))
    by (unfold len; rewrite (delete_middle _ [] E); apply app_nil_r).
  rewrite Hdel.
  unfold _reindexEntitiesArray. unfold bind at 1. unfold bind at 1.
  unfold getThis at 1.
  destruct (Z.ltb_spec (Z.of_nat len) 0) as [Hneg|_]; [lia|].
  rewrite Nat2Z.id. cbn [_entities this with_this set_entities].
  unfold len. rewrite drop_all. fold len. cbn [reindexFrom ret].
  match goal with |- bind (modEntity E _) _ ?W = _ => set (wA := W) end.
  assert (HA : ents wA !! E = Some e1) by exact HE1.
  rewrite (bind_Done _ _ _ _ _ (modEntity_Done E _ e1 wA HA)).
  match goal with |- bind (modEntity E _) _ ?W = _ => set (wB := W) end.
  assert (HB : ents wB !! E = Some (set_vectorLayer None e1)).
  { unfold wB. cbn [ents with_ents]. rewrite list_lookup_alter_eq, HA.
    reflexivity. }
  rewrite (bind_Done _ _ _ _ _ (modEntity_Done E _ _ wB HB)).
  match goal with |- bind _ _ ?W = _ => set (wC := W) end.
  assert (HC : ents wC !! E = Some (released e)).
  { unfold wC. cbn [ents with_ents]. rewrite list_lookup_alter_eq, HB.
    reflexivity. }
  destruct Hun as [_ Hc].
  unfold bind, getEntity. rewrite HC.
  cbn [released _entityCollection _nodePtr set_vectorLayerIndex set_vectorLayer].
  rewrite Hc, Hnode. cbn [ret truthy]. rewrite HC.
  cbn [released _entityCollection _nodePtr set_vectorLayerIndex set_vectorLayer].
  rewrite Hnode. cbn [ret truthy dispatch modify].
  f_equal.
  assert (Hents : ents wC = <[E := released e]> (ents w)).
  { apply list_eq. intros r. destruct (decide (r = E)) as [->|Hne].
    - rewrite HC.
      rewrite list_lookup_insert_eq by (eapply lookup_lt_Some; exact HE).
      reflexivity.
    - unfold wC, wB, wA.
      cbn [ents with_ents with_this taken announced with_dispatched].
      rewrite !list_lookup_alter_ne by congruence.
      rewrite list_lookup_insert_ne by congruence. reflexivity. }
  rewrite <- Hents. clear.
  repeat match goal with x := _ |- _ => subst x end.
  destruct w as [he hn hc l hd ht hct]. destruct l.
  unfold with_dispatched, with_ents, with_this, announced, taken, set_entities.
  unfold dispatch, modify, with_dispatched.
  cbn. rewrite <- app_assoc. reflexivity.
Qed.

End RoundTrip.

Example add_then_removeEntity_restores_witness :
  ents (looseLayer threePoints) !! 0%nat = Some (pointEntity 7 10 20) /\
  (@add sampleCollaborators 0 false ;;; removeEntity 0) (looseLayer threePoints) =
    Done tt
      (with_dispatched
         (dispatched (looseLayer threePoints)
            ++ [(entityadd, 0%nat); (entityremove, 0%nat)])
         (with_ents (<[0%nat := released (pointEntity 7 10 20)]>
                       (ents (looseLayer threePoints)))
            (looseLayer threePoints))).
Proof.
  split; [reflexivity|].
  apply (add_then_removeEntity_restores (C := sampleCollaborators) 0
           (pointEntity 7 10 20) false (looseLayer threePoints)).
  - reflexivity.
  - reflexivity.
  - split; reflexivity.
  - reflexivity.
  - reflexivity.
Defined.

(** ** The hand-over at the end of a build *)

Section HandOver.
Context `{C : Collaborators}.

(** X5: [_dequeueRequest] when the one build in flight completes.  If the
    backlog holds a visible node, the most recently queued visible one [n]
    is started: the counter is 1 again, one more timer is pending (for
    [n]), the entries queued after [n] are dropped with their queued flag
    cleared, and the entries queued before [n] stay.  If no entry is
    visible the scheduler goes idle: counter 0, no new timer, empty
    backlog, every entry's flag cleared. *)
Theorem dequeueRequest_hands_over (w : World) :
  let q := _deferredEntitiesPendingQueue (this w) in
  let visible := isVisible (scene_of (this w)) in
  _counter (this w) = 1%Z ->
  Forall (live w) q ->
  (forall (skipped : list nref) (n : nref) (rest : list nref),
     q = skipped ++ n :: rest ->
     Forall (fun m => visible m = false) skipped -> visible n = true ->
     exists w',
       _dequeueRequest w = Done tt w' /\
       _counter (this w') = 1%Z /\
       timers w' = timers w ++ [n] /\
       _deferredEntitiesPendingQueue (this w') = rest /\
       nodes w' = clearQueued (skipped ++ [n]) (nodes w)) /\
  (Forall (fun m => visible m = false) q ->
     exists w',
       _dequeueRequest w = Done tt w' /\
       _counter (this w') = 0%Z /\
       timers w' = timers w /\
       _deferredEntitiesPendingQueue (this w') = [] /\
       nodes w' = clearQueued q (nodes w)).
Proof.
  intros q visible Hc Hlive.
  set (w1 := with_counterTrace (counterTrace w ++ [(_counter (this w) - 1)%Z])
               (with_this (set_counter (_counter (this w) - 1) (this w)) w)).
  assert (Hrun1 : assignCounter (_counter (this w) - 1) w = Done tt w1)
    by reflexivity.
  assert (Hq1 : _deferredEntitiesPendingQueue (this w1) = q) by reflexivity.
  assert (Hlive1 : Forall (live w1) q) by exact Hlive.
  assert (Hc1 : (_counter (this w1) <? 1)%Z = true).
  { cbn. rewrite Hc. reflexivity. }
  split.
  - intros skipped n rest Hq Hskip Hvis.
    unfold _dequeueRequest. unfold bind at 1. unfold getThis at 1.
    rewrite (bind_Done _ _ _ _ _ Hrun1).
    unfold bind at 1. unfold getThis at 1.
    rewrite Hc1, Hq1, Hq. rewrite length_app. cbn [length].
    replace (length skipped + S (length rest) =? 0)%nat with false
      by (symmetry; apply Nat.eqb_neq; lia).
    cbn [negb andb].
    assert (Hfound : _whilePendings w1 =
                     Done (Some n) (drained (skipped ++ [n]) rest w1)).
    { unfold _whilePendings, bind, getThis. rewrite Hq1, Hq.
      apply whilePendings_loop_found.
      - rewrite Hq1. exact Hq.
      - rewrite Hq in Hlive1. apply Forall_app in Hlive1 as [H1 H2].
        apply Forall_app. split; [exact H1|].
        apply Forall_inv in H2. constructor; [exact H2|constructor].
      - exact Hskip.
      - exact Hvis. }
    rewrite (bind_Done _ _ _ _ _ Hfound).
    eexists. split; [reflexivity|]. cbn. rewrite Hc. repeat split.
  - intros Hskip.
    unfold _dequeueRequest. unfold bind at 1. unfold getThis at 1.
    rewrite (bind_Done _ _ _ _ _ Hrun1).
    unfold bind at 1. unfold getThis at 1.
    rewrite Hc1, Hq1, andb_true_r.
    destruct q as [|m q'] eqn:Hq.
    + cbn [length Nat.eqb negb]. exists w1. split; [reflexivity|].
      cbn. rewrite Hc. repeat split. exact Hq.
    + cbn [length Nat.eqb negb].
      assert (Hnone : _whilePendings w1 = Done None (drained (m :: q') [] w1)).
      { unfold _whilePendings, bind, getThis. rewrite Hq1.
        apply whilePendings_loop_none; [exact Hq1|exact Hlive1|exact Hskip]. }
      rewrite (bind_Done _ _ _ _ _ Hnone).
      eexists. split; [reflexivity|]. cbn. rewrite Hc. repeat split.
Qed.

End HandOver.

Example dequeueRequest_hands_over_witness :
  _counter (this (with_this (set_counter 1 (this backlogWorld)) backlogWorld))
    = 1%Z /\
  exists w',
    @_dequeueRequest sampleCollaborators
      (with_this (set_counter 1 (this backlogWorld)) backlogWorld) = Done tt w' /\
    _counter (this w') = 1%Z /\
    timers w' = [1%nat] /\
    _deferredEntitiesPendingQueue (this w') = [0%nat].
Proof.
  split; [reflexivity|].
  assert (Hlive : Forall (live (with_this (set_counter 1 (this backlogWorld))
                                 backlogWorld))
                    [2; 1; 0]%nat).
  { repeat constructor; eexists; vm_compute; reflexivity. }
  assert (Hskip : Forall (fun m => @isVisible sampleCollaborators
                     (scene_of (this (with_this (set_counter 1 (this backlogWorld))
                                        backlogWorld))) m = false) [2%nat]).
  { repeat constructor. }
  destruct (proj1 (dequeueRequest_hands_over (C := sampleCollaborators)
                     (with_this (set_counter 1 (this backlogWorld)) backlogWorld)
                     eq_refl Hlive)
              [2%nat] 1%nat [0%nat] eq_refl Hskip eq_refl)
    as (w' & Hrun & Hc & Ht & Hq & _).
  exists w'. repeat split; assumption.
Defined.

(** ** Replacing and bulk-adding on a layer that is not attached *)

Lemma markEntities_Done (L : list eref) (lid : nat) :
  NoDup L ->
  forall (i : nat) (w : World),
    i <= length L -> _id (this w) = lid ->
    (forall j r, L !! j = Some r -> j < i ->
       exists e, ents w !! r = Some e /\ _vectorLayer e = None) ->
    exists w',
      markEntities i L w = Done tt w' /\
      this w' = this w /\ nodes w' = nodes w /\ colls w' = colls w /\
      dispatched w' = dispatched w /\ timers w' = timers w /\
      counterTrace w' = counterTrace w /\
      (forall j r, L !! j = Some r -> j < i ->
         exists e, ents w' !! r = Some e /\ _vectorLayer e = Some lid /\
                   _vectorLayerIndex e = Z.of_nat j) /\
      (forall r, r ∉ take i L -> ents w' !! r = ents w !! r).
Proof.
  intros Hnd. induction i as [|j IH]; intros w Hi Hid Hfree.
  - exists w. repeat split; try reflexivity. intros j r _ Hj. lia.
  - destruct (lookup_lt_is_Some_2 L j) as [r Hr]; [lia|].
    destruct (Hfree j r Hr) as (e & He & Hv); [lia|].
    cbn [markEntities]. rewrite Hr.
    rewrite (bind_Done _ _ _ _ _ (getEntity_Done _ _ _ He)), Hv.
    cbn [truthy negb].
    set (h1 := alter (set_vectorLayerIndex (Z.of_nat j)) r
                 (alter (set_vectorLayer (Some lid)) r (ents w))).
    assert (Hrun : (l <- getThis ;;
                    modEntity r (set_vectorLayer (Some (_id l))) ;;;
                    modEntity r (set_vectorLayerIndex (Z.of_nat j))) w
                   = Done tt (with_ents h1 w)).
    { unfold bind at 1. unfold getThis at 1. rewrite Hid.
      rewrite (bind_Done _ _ _ _ _ (modEntity_Done _ _ _ _ He)).
      erewrite modEntity_Done;
        [|cbn [ents with_ents]; rewrite list_lookup_alter_eq, He; reflexivity].
      reflexivity. }
    rewrite (bind_Done _ _ _ _ _ Hrun).
    destruct (IH (with_ents h1 w)) as (w' & Hrun' & Ht & Hn & Hc & Hd & Htm & Hct & Hmk & Hfr).
    + lia.
    + exact Hid.
    + intros j' r' Hr' Hj'.
      assert (Hne : r <> r').
      { intros <-. pose proof (proj1 (NoDup_alt L) Hnd _ _ _ Hr Hr'). lia. }
      destruct (Hfree j' r' Hr') as (e' & He' & Hv'); [lia|].
      exists e'. split; [|exact Hv'].
      cbn [ents with_ents]. unfold h1.
      rewrite !list_lookup_alter_ne by exact Hne. exact He'.
    + exists w'. split; [exact Hrun'|].
      repeat (split; [assumption|]). split.
      * intros j' r' Hr' Hj'.
        destruct (decide (j' = j)) as [->|Hne].
        -- rewrite Hr in Hr'. injection Hr' as <-.
           rewrite Hfr.
           ++ cbn [ents with_ents]. unfold h1.
              rewrite !list_lookup_alter_eq, He.
              eexists. split; [reflexivity|]. split; reflexivity.
           ++ intros Hin. apply list_elem_of_lookup in Hin as [k Hk].
              pose proof (lookup_lt_Some _ _ _ Hk) as Hlt.
              rewrite length_take in Hlt.
              rewrite lookup_take_lt in Hk by lia.
              pose proof (proj1 (NoDup_alt L) Hnd _ _ _ Hr Hk). lia.
        -- apply Hmk; [exact Hr'|lia].
      * intros r' Hr'. rewrite (take_S_r L j r Hr) in Hr'.
        apply not_elem_of_app in Hr' as [Hr1 Hr2].
        rewrite Hfr by exact Hr1.
        cbn [ents with_ents]. unfold h1.
        apply not_elem_of_cons in Hr2 as [Hne _].
        rewrite !list_lookup_alter_ne by congruence. reflexivity.
Qed.

Section Loose.
Context `{C : Collaborators}.

(** X6: [setEntities] on a layer without a planet, for distinct entities that
    no vector layer owns: the call returns, the flat list is the given list,
    every listed entity names the layer and stores its position, the extent
    is the empty one, and nothing else happens: no node is built, no
    collection is touched (a line entity is not put into the
    always-collection) and no event is dispatched. *)
Theorem setEntities_loose (L : list eref) (w : World) :
  _planet (this w) = None ->
  NoDup L ->
  (forall r, r ∈ L -> exists e, ents w !! r = Some e /\ _vectorLayer e = None) ->
  exists w',
    setEntities L w = Done tt w' /\
    _entities (this w') = L /\
    indexed w' /\
    _extent (this w') = emptyExtent /\
    nodes w' = nodes w /\ colls w' = colls w /\
    dispatched w' = dispatched w.
Proof.
  intros Hp Hnd Hfree.
  unfold setEntities, clear.
  unfold bind at 1. unfold ret at 1.
  unfold bind at 1. unfold modThis, modify at 1.
  set (w0 := with_this (set_entities L (this w)) w).
  destruct (markEntities_Done L (_id (this w)) Hnd (length L) w0)
    as (w1 & Hrun & Ht & Hn & Hc & Hd & _ & _ & Hmk & _).
  - lia.
  - reflexivity.
  - intros j r Hr _. apply Hfree. eapply list_elem_of_lookup_2. exact Hr.
  - rewrite (bind_Done _ _ _ _ _ Hrun).
    unfold _buildEntityCollectionsTree.
    unfold bind at 1. unfold modThis, modify at 1.
    unfold bind at 1. unfold getThis at 1.
    cbn [this with_this set_extent _planet]. rewrite Ht.
    cbn [w0 this with_this set_entities _planet]. rewrite Hp. cbn [truthy ret].
    eexists. split; [reflexivity|].
    cbn [this with_this set_extent _entities _extent nodes colls dispatched].
    rewrite Hn, Hc, Hd.
    split; [reflexivity|]. split; [|repeat split].
    intros i r Hr. cbn [this with_this set_extent _entities w0 set_entities] in Hr.
    cbn [ents with_this this w0 set_extent set_entities _id].
    apply Hmk; [exact Hr|]. eapply lookup_lt_Some. exact Hr.
Qed.

End Loose.

Example setEntities_loose_witness :
  NoDup [2; 0]%nat /\
  exists w',
    @setEntities sampleCollaborators [2; 0]%nat (looseLayer threePoints)
      = Done tt w' /\
    _entities (this w') = [2; 0]%nat /\
    indexed w'.
Proof.
  assert (Hnd : NoDup [2; 0]%nat).
  { apply NoDup_cons. split; [|apply NoDup_singleton].
    intros H. apply list_elem_of_singleton in H. discriminate. }
  split; [exact Hnd|].
  destruct (setEntities_loose (C := sampleCollaborators) [2; 0]%nat
              (looseLayer threePoints) eq_refl Hnd)
    as (w' & Hrun & Hl & Hidx & _).
  - intros r Hr. apply elem_of_cons in Hr as [->|Hr].
    + eexists. split; reflexivity.
    + apply list_elem_of_singleton in Hr as ->. eexists. split; reflexivity.
  - exists w'. repeat split; assumption.
Defined.

Lemma markEntities_total (L : list eref) :
  forall (i : nat) (w : World),
    i <= length L ->
    (forall r, r ∈ L -> is_Some (ents w !! r)) ->
    exists w',
      markEntities i L w = Done tt w' /\
      this w' = this w /\
      (forall r e, ents w !! r = Some e -> is_Some (_vectorLayer e) ->
                   ents w' !! r = Some e) /\
      (forall r, is_Some (ents w !! r) -> is_Some (ents w' !! r)).
Proof.
  induction i as [|j IH]; intros w Hi Hlive.
  - exists w. repeat split; auto.
  - destruct (lookup_lt_is_Some_2 L j) as [r Hr]; [lia|].
    destruct (Hlive r) as [e He]; [eapply list_elem_of_lookup_2; exact Hr|].
    cbn [markEntities]. rewrite Hr.
    rewrite (bind_Done _ _ _ _ _ (getEntity_Done _ _ _ He)).
    destruct (_vectorLayer e) as [v|] eqn:Hv; cbn [truthy negb].
    + unfold bind at 1. unfold ret at 1.
      destruct (IH w) as (w' & Hrun & Ht & Hown & Hl); [lia|exact Hlive|].
      exists w'. repeat split; assumption.
    + set (h1 := alter (set_vectorLayerIndex (Z.of_nat j)) r
                   (alter (set_vectorLayer (Some (_id (this w)))) r (ents w))).
      assert (Hrun : (l <- getThis ;;
                      modEntity r (set_vectorLayer (Some (_id l))) ;;;
                      modEntity r (set_vectorLayerIndex (Z.of_nat j))) w
                     = Done tt (with_ents h1 w)).
      { unfold bind at 1. unfold getThis at 1.
        rewrite (bind_Done _ _ _ _ _ (modEntity_Done _ _ _ _ He)).
        erewrite modEntity_Done;
          [|cbn [ents with_ents]; rewrite list_lookup_alter_eq, He; reflexivity].
        reflexivity. }
      rewrite (bind_Done _ _ _ _ _ Hrun).
      assert (Hl1 : forall r', is_Some (ents w !! r') ->
                               is_Some (ents (with_ents h1 w) !! r')).
      { intros r' [e' He']. cbn [ents with_ents]. unfold h1.
        destruct (decide (r = r')) as [->|Hne].
        - rewrite !list_lookup_alter_eq, He'. cbn. eauto.
        - rewrite !list_lookup_alter_ne by exact Hne. rewrite He'. eauto. }
      destruct (IH (with_ents h1 w)) as (w' & Hrun' & Ht & Hown & Hl).
      * lia.
      * intros r' Hr'. apply Hl1, Hlive, Hr'.
      * exists w'. split; [exact Hrun'|]. split; [exact Ht|]. split.
        -- intros r' e' He' Hv'. apply Hown; [|exact Hv'].
           cbn [ents with_ents]. unfold h1.
           assert (Hne : r <> r').
           { intros <-. rewrite He in He'. injection He' as <-.
             rewrite Hv in Hv'. destruct Hv' as [? ?]. discriminate. }
           rewrite !list_lookup_alter_ne by exact Hne. exact He'.
        -- intros r' Hr'. apply Hl, Hl1, Hr'.
Qed.

Section LooseMore.
Context `{C : Collaborators}.

(** X7: [setEntities] does not take over an entity that another vector layer
    owns, but lists it all the same: on a layer without a planet the call
    returns with the entity on the flat list and the entity as it was, and
    a [removeEntity] of that entity on this layer then does nothing, so the
    entity stays listed. *)
Theorem setEntities_lists_foreign_entity (L : list eref) (r : eref)
    (e : Entity) (v : nat) (w : World) :
  _planet (this w) = None ->
  (forall r', r' ∈ L -> is_Some (ents w !! r')) ->
  r ∈ L -> ents w !! r = Some e ->
  _vectorLayer e = Some v -> v <> _id (this w) ->
  exists w',
    setEntities L w = Done tt w' /\
    r ∈ _entities (this w') /\
    ents w' !! r = Some e /\
    removeEntity r w' = Done tt w'.
Proof.
  intros Hp Hlive HrL He Hv Hne.
  unfold setEntities, clear.
  unfold bind at 1. unfold ret at 1.
  unfold bind at 1. unfold modThis, modify at 1.
  set (w0 := with_this (set_entities L (this w)) w).
  destruct (markEntities_total L (length L) w0)
    as (w1 & Hrun & Ht & Hown & _); [lia|exact Hlive|].
  rewrite (bind_Done _ _ _ _ _ Hrun).
  unfold _buildEntityCollectionsTree.
  unfold bind at 1. unfold modThis, modify at 1.
  unfold bind at 1. unfold getThis at 1.
  cbn [this with_this set_extent _planet]. rewrite Ht.
  cbn [w0 this with_this set_entities _planet]. rewrite Hp. cbn [truthy ret].
  assert (He1 : ents w1 !! r = Some e).
  { apply Hown; [exact He|]. rewrite Hv. eauto. }
  eexists. split; [reflexivity|].
  split; [exact HrL|]. split; [exact He1|].
  apply (removeEntity_skips r e); [exact He1|].
  rewrite Hv. cbn. congruence.
Qed.

End LooseMore.

Example setEntities_lists_foreign_entity_witness :
  ents (looseLayer [set_vectorLayer (Some 2%nat) (pointEntity 7 10 20)]) !! 0%nat
    = Some (set_vectorLayer (Some 2%nat) (pointEntity 7 10 20)) /\
  exists w',
    @setEntities sampleCollaborators [0%nat]
      (looseLayer [set_vectorLayer (Some 2%nat) (pointEntity 7 10 20)])
      = Done tt w' /\
    0%nat ∈ _entities (this w') /\
    ents w' !! 0%nat = Some (set_vectorLayer (Some 2%nat) (pointEntity 7 10 20)) /\
    removeEntity 0 w' = Done tt w'.
Proof.
  split; [reflexivity|].
  apply (setEntities_lists_foreign_entity (C := sampleCollaborators) [0%nat]
           0%nat (set_vectorLayer (Some 2%nat) (pointEntity 7 10 20)) 2%nat).
  - reflexivity.
  - intros r Hr. apply list_elem_of_singleton in Hr as ->. eexists. reflexivity.
  - apply list_elem_of_here.
  - reflexivity.
  - reflexivity.
  - discriminate.
Defined.

Lemma getColl_Done c ec w :
  colls w !! c = Some ec -> getColl c w = Done ec w.
Proof. unfold getColl. intros ->. reflexivity. Qed.

Lemma modColl_Done c f ec w :
  colls w !! c = Some ec ->
  modColl c f w = Done tt (with_colls (alter f c (colls w)) w).
Proof.
  intros H. unfold modColl.
  rewrite (bind_Done _ _ _ _ _ (getColl_Done _ _ _ H)). reflexivity.
Qed.

Section Bulk.
Context `{C : Collaborators}.

(** [add] on a layer without a planet, for an entity nobody owns. *)
Lemma add_loose (E : eref) (e : Entity) (rightNow : bool) (w : World) :
  _planet (this w) = None ->
  is_Some (colls w !! _entityCollectionAlways (this w)) ->
  ents w !! E = Some e -> unowned e ->
  exists w',
    add E rightNow w = Done tt w' /\
    this w' = set_entities (_entities (this w) ++ [E]) (this w) /\
    dispatched w' = dispatched w ++ [(entityadd, E)] /\
    (forall r, r <> E -> ents w' !! r = ents w !! r) /\
    (forall c, is_Some (colls w !! c) -> is_Some (colls w' !! c)).
Proof.
  intros Hp [ec Hec] HE Hun.
  rewrite (add_unowned E e rightNow w HE Hun), Hp. cbn [truthy].
  pose proof (taken_lookup E e w HE) as HE1.
  destruct (lineString e).
  - unfold EntityCollection_add.
    assert (Hec1 : colls (taken E w) !! _entityCollectionAlways (this w) = Some ec)
      by exact Hec.
    unfold bind at 1. unfold bind at 1.
    rewrite (modColl_Done _ _ _ _ Hec1).
    erewrite modEntity_Done; [|cbn [ents with_colls]; exact HE1].
    eexists. split; [reflexivity|].
    cbn [this with_dispatched with_ents with_colls taken with_this
         dispatched ents colls].
    repeat split.
    + intros r Hne. rewrite !list_lookup_alter_ne by congruence. reflexivity.
    + intros c [x Hx]. rewrite list_lookup_alter.
      destruct (decide (_entityCollectionAlways (this w) = c)) as [->|];
        rewrite ?Hx; cbn; eauto.
  - eexists. split; [reflexivity|].
    cbn [this with_dispatched with_ents taken with_this dispatched ents colls
         dispatch modify bind ret].
    repeat split.
    + intros r Hne. rewrite !list_lookup_alter_ne by congruence. reflexivity.
    + auto.
Qed.

Lemma addEntities_loop_loose (L : list eref) (rightNow : bool) :
  NoDup L ->
  forall (i : nat) (w : World),
    i <= length L ->
    _planet (this w) = None ->
    is_Some (colls w !! _entityCollectionAlways (this w)) ->
    (forall j r, L !! j = Some r -> j < i ->
       exists e, ents w !! r = Some e /\ unowned e) ->
    exists w',
      addEntities_loop i L rightNow w = Done tt w' /\
      _entities (this w') = _entities (this w) ++ rev (take i L) /\
      dispatched w' =
        dispatched w ++ ((fun r => (entityadd, r)) <$> rev (take i L)).
Proof.
  intros Hnd. induction i as [|j IH]; intros w Hi Hp Hal Hfree.
  - exists w. cbn. rewrite !app_nil_r. repeat split.
  - destruct (lookup_lt_is_Some_2 L j) as [r Hr]; [lia|].
    destruct (Hfree j r Hr) as (e & He & Hun); [lia|].
    cbn [addEntities_loop]. rewrite Hr.
    destruct (add_loose r e rightNow w Hp Hal He Hun)
      as (w1 & Hrun & Ht & Hd & Hother & Hcl).
    rewrite (bind_Done _ _ _ _ _ Hrun).
    destruct (IH w1) as (w' & Hrun' & Hl' & Hd').
    + lia.
    + rewrite Ht. exact Hp.
    + rewrite Ht. apply Hcl. exact Hal.
    + intros j' r' Hr' Hj'.
      destruct (Hfree j' r' Hr') as (e' & He' & Hun'); [lia|].
      exists e'. split; [|exact Hun'].
      rewrite Hother; [exact He'|].
      intros ->. pose proof (proj1 (NoDup_alt L) Hnd _ _ _ Hr Hr'). lia.
    + exists w'. split; [exact Hrun'|].
      rewrite (take_S_r L j r Hr), rev_app_distr. cbn [rev app].
      rewrite Hl', Hd', Ht, Hd. cbn [_entities set_entities fmap list_fmap].
      rewrite <- !app_assoc. split; reflexivity.
Qed.

(** X8: [addEntities] on a layer without a planet, for distinct entities nobody
    owns: the call returns, and the entities are added from the last to the
    first, so the flat list grows by the given list reversed and the
    entityadd events are dispatched in that reversed order. *)
Theorem addEntities_loose_reverses (L : list eref) (rightNow : bool)
    (w : World) :
  _planet (this w) = None ->
  is_Some (colls w !! _entityCollectionAlways (this w)) ->
  NoDup L ->
  (forall r, r ∈ L -> exists e, ents w !! r = Some e /\ unowned e) ->
  exists w',
    addEntities L rightNow w = Done tt w' /\
    _entities (this w') = _entities (this w) ++ rev L /\
    dispatched w' = dispatched w ++ ((fun r => (entityadd, r)) <$> rev L).
Proof.
  intros Hp Hal Hnd Hfree. unfold addEntities.
  destruct (addEntities_loop_loose L rightNow Hnd (length L) w)
    as (w' & Hrun & Hl & Hd); [lia|exact Hp|exact Hal| |].
  - intros j r Hr _. apply Hfree. eapply list_elem_of_lookup_2. exact Hr.
  - rewrite firstn_all in Hl, Hd. exists w'. repeat split; assumption.
Qed.

End Bulk.

Example addEntities_loose_reverses_witness :
  NoDup [0; 1; 2]%nat /\
  exists w',
    @addEntities sampleCollaborators [0; 1; 2]%nat false (looseLayer threePoints)
      = Done tt w' /\
    _entities (this w') = [2; 1; 0]%nat.
Proof.
  assert (Hnd : NoDup [0; 1; 2]%nat).
  { apply NoDup_ListNoDup. repeat constructor; cbn; intuition discriminate. }
  split; [exact Hnd|].
  destruct (addEntities_loose_reverses (C := sampleCollaborators)
              [0; 1; 2]%nat false (looseLayer threePoints) eq_refl)
    as (w' & Hrun & Hl & _).
  - eexists. reflexivity.
  - exact Hnd.
  - intros r Hr.
    repeat (apply elem_of_cons in Hr as [->|Hr];
            [eexists; split; [reflexivity|split; reflexivity]|]).
    apply elem_of_nil in Hr. destruct Hr.
  - exists w'. split; [exact Hrun|exact Hl].
Defined.

(** ** Attaching: the rebuild of the trees *)




Section Rebuild.
Context `{C : Collaborators}.



End Rebuild.


(** ** The ancestor counts *)

Lemma chain_functional (ns : list QuadNode) (start : option nref)
    (a a' : list nref) :
  chain ns start a -> chain ns start a' -> a = a'.
Proof.
  intros H. revert a'. induction H as [|n q anc Hn _ IH]; intros a' H'.
  - inversion H'. reflexivity.
  - inversion H' as [|n' q' anc' Hn' Hc']; subst.
    rewrite Hn in Hn'. injection Hn' as <-. f_equal. apply IH. exact Hc'.
Qed.

Lemma chain_suffix (ns : list QuadNode) (start : option nref)
    (anc : list nref) (m : nref) :
  chain ns start anc -> m ∈ anc ->
  exists pre suf, anc = pre ++ m :: suf /\ chain ns (Some m) (m :: suf).
Proof.
  intros H. induction H as [|n q anc Hn Hc IH]; intros Hm.
  - apply elem_of_nil in Hm. destruct Hm.
  - apply elem_of_cons in Hm as [->|Hm].
    + exists [], anc. split; [reflexivity|]. econstructor; eassumption.
    + destruct (IH Hm) as (pre & suf & -> & Hs).
      exists (n :: pre), suf. split; [reflexivity|exact Hs].
Qed.

Lemma chain_NoDup (ns : list QuadNode) (start : option nref) (anc : list nref) :
  chain ns start anc -> NoDup anc.
Proof.
  intros H. induction H as [|n q anc Hn Hc IH]; [constructor|].
  apply NoDup_cons. split; [|exact IH].
  intros Hin.
  destruct (chain_suffix _ _ _ _ Hc Hin) as (pre & suf & Heq & Hs).
  assert (Hfull : chain ns (Some n) (n :: anc)) by (econstructor; eassumption).
  pose proof (chain_functional _ _ _ _ Hfull Hs) as Hsame.
  injection Hsame as Hsame. rewrite Hsame in Heq.
  apply (f_equal length) in Heq. rewrite length_app in Heq. cbn in Heq. lia.
Qed.

Lemma chain_live (ns : list QuadNode) (start : option nref) (anc : list nref) :
  chain ns start anc -> forall m, m ∈ anc -> m < length ns.
Proof.
  intros H. induction H as [|n q anc Hn Hc IH]; intros m Hm.
  - apply elem_of_nil in Hm. destruct Hm.
  - apply elem_of_cons in Hm as [->|Hm]; [|apply IH; exact Hm].
    eapply lookup_lt_Some. exact Hn.
Qed.

Lemma chain_bound (ns : list QuadNode) (start : option nref) (anc : list nref) :
  chain ns start anc -> length anc <= length ns.
Proof.
  intros H.
  assert (Hsub : anc ⊆+ seq 0 (length ns)).
  { apply NoDup_submseteq; [exact (chain_NoDup _ _ _ H)|].
    intros m Hm. apply elem_of_seq. pose proof (chain_live _ _ _ H m Hm). lia. }
  apply submseteq_length in Hsub. rewrite length_seq in Hsub. exact Hsub.
Qed.

Lemma chain_alter_count (ns : list QuadNode) (start : option nref)
    (anc : list nref) (m : nref) :
  chain ns start anc -> chain (alter decremented m ns) start anc.
Proof.
  intros H. induction H as [|n q anc Hn Hc IH]; [constructor|].
  destruct (decide (m = n)) as [->|Hne].
  - apply (chain_up _ n (decremented q)); [|exact IH].
    rewrite list_lookup_alter_eq, Hn. reflexivity.
  - apply (chain_up _ n q); [|exact IH].
    rewrite list_lookup_alter_ne by exact Hne. exact Hn.
Qed.

Lemma decAll_lookup (anc : list nref) :
  forall (ns : list QuadNode) (m : nref),
    NoDup anc ->
    decAll anc ns !! m =
      if bool_decide (m ∈ anc) then decremented <$> ns !! m else ns !! m.
Proof.
  unfold decAll.
  induction anc as [|n anc IH]; intros ns m Hnd; [reflexivity|].
  apply NoDup_cons in Hnd as [Hn Hnd]. cbn [foldl]. rewrite IH by exact Hnd.
  destruct (decide (m = n)) as [->|Hne].
  - rewrite (bool_decide_eq_false_2 _ Hn).
    rewrite (bool_decide_eq_true_2 (n ∈ n :: anc)) by apply list_elem_of_here.
    apply list_lookup_alter_eq.
  - rewrite list_lookup_alter_ne by congruence.
    destruct (bool_decide_reflect (m ∈ anc)) as [Hin|Hnin].
    + rewrite bool_decide_eq_true_2; [reflexivity|].
      apply list_elem_of_further. exact Hin.
    + rewrite bool_decide_eq_false_2; [reflexivity|].
      intros Hin. apply elem_of_cons in Hin as [?|?]; congruence.
Qed.

Lemma decCounts_chain (anc : list nref) :
  forall (fuel : nat) (start : option nref) (w : World),
    chain (nodes w) start anc -> length anc <= fuel ->
    decCounts fuel start w = Done tt (with_nodes (decAll anc (nodes w)) w).
Proof.
  induction anc as [|n anc IH]; intros fuel start w Hch Hfuel.
  - inversion Hch; subst. destruct fuel; destruct w; reflexivity.
  - inversion Hch as [|n' q anc' Hn Hc]; subst.
    destruct fuel as [|fuel]; [cbn in Hfuel; lia|].
    cbn [decCounts]. unfold bind at 1. unfold get at 1. rewrite Hn.
    rewrite (bind_Done _ _ _ _ _ (modNode_Done _ _ _ _ Hn)).
    assert (Halt : alter (node_set_count (count q - 1)) n (nodes w)
                   = alter decremented n (nodes w)).
    { apply list_alter_ext; [|reflexivity].
      intros q' Hq'. rewrite Hn in Hq'. injection Hq' as <-. reflexivity. }
    rewrite Halt.
    rewrite (IH fuel (parentNode q)).
    + reflexivity.
    + cbn [nodes with_nodes]. apply chain_alter_count. exact Hc.
    + cbn in Hfuel. lia.
Qed.

Lemma decAncestors_chain (anc : list nref) (start : option nref) (w : World) :
  chain (nodes w) start anc ->
  decAncestors start w = Done tt (with_nodes (decAll anc (nodes w)) w).
Proof.
  intros Hch. unfold decAncestors, bind, get.
  apply decCounts_chain; [exact Hch|]. exact (chain_bound _ _ _ Hch).
Qed.

(** ** Removing from a materialized collection *)

(** X10: [removeEntity] on a listed entity that sits in the materialized
    collection [c] of the node [n], with the parent chain [anc] of [n]
    ending at a root: the call returns; the count of every node of the
    chain, and of no other node, is one less; the node [n] loses its
    collection handle exactly if it then counts no entity and buffers none;
    the entity is out of the collection, names neither the collection nor
    the node, and one entityremove event is dispatched. *)
Theorem removeEntity_from_collection (E : eref) (i : nat) (e : Entity)
    (c : cref) (n : nref) (anc : list nref) (w : World) :
  indexed w ->
  _entities (this w) !! i = Some E ->
  ents w !! E = Some e ->
  _entityCollection e = Some c -> is_Some (colls w !! c) ->
  _nodePtr e = Some n -> chain (nodes w) (Some n) anc ->
  exists w',
    removeEntity E w = Done tt w' /\
    nodes w' = alter emptiedNode n (decAll anc (nodes w)) /\
    (forall m, decAll anc (nodes w) !! m =
       if bool_decide (m ∈ anc) then decremented <$> nodes w !! m
       else nodes w !! m) /\
    ec_entities <$> colls w' !! c =
      filter (fun r => r <> E) <$> (ec_entities <$> colls w !! c) /\
    (_entityCollection <$> ents w' !! E = Some None /\
     _nodePtr <$> ents w' !! E = Some None) /\
    dispatched w' = dispatched w ++ [(entityremove, E)].
Proof.
  intros Hidx HiE HE Hc [ec Hec] Hn Hch.
  destruct (removeEntity_unlisted E i e w Hidx HiE HE)
    as (wR & Hrun & Ht & Hnodes & Hcolls & Hd & HER & _ & _).
  rewrite Hrun. unfold removeEntity_rest.
  unfold bind at 1. unfold bind at 1.
  rewrite (getEntity_Done _ _ _ HER).
  cbn [released _entityCollection set_vectorLayerIndex set_vectorLayer].
  rewrite Hc.
  (* out of the collection *)
  unfold _removeEntitySilent. unfold bind at 1. unfold bind at 1.
  assert (HecR : colls wR !! c = Some ec) by (rewrite Hcolls; exact Hec).
  rewrite (modColl_Done _ _ _ _ HecR).
  match goal with |- context [modEntity E _ ?W] => set (wA := W) end.
  assert (HEA : ents wA !! E = Some (released e)) by exact HER.
  rewrite (modEntity_Done _ _ _ _ HEA).
  match goal with |- context [bind (getEntity E) _ ?W] => set (wB := W) end.
  assert (HEB : ents wB !! E = Some (set_entityCollection None (released e))).
  { unfold wB. cbn [ents with_ents]. rewrite list_lookup_alter_eq, HEA.
    reflexivity. }
  unfold bind at 1. rewrite (getEntity_Done _ _ _ HEB).
  cbn [released _nodePtr set_vectorLayerIndex set_vectorLayer
       set_entityCollection].
  rewrite Hn.
  (* the counts *)
  assert (HchB : chain (nodes wB) (Some n) anc)
    by (unfold wB, wA; cbn [nodes with_ents with_colls]; rewrite Hnodes; exact Hch).
  unfold bind at 1. rewrite (decAncestors_chain anc (Some n) wB HchB).
  assert (HnB : nodes wB = nodes w) by exact Hnodes.
  rewrite HnB.
  set (ns := decAll anc (nodes w)).
  pose proof (chain_NoDup _ _ _ Hch) as Hnd.
  inversion Hch as [|n' q anc' Hq Hc']; subst n' anc.
  assert (Hqn : ns !! n = Some (decremented q)).
  { unfold ns. rewrite decAll_lookup by exact Hnd.
    rewrite bool_decide_eq_true_2 by apply list_elem_of_here.
    rewrite Hq. reflexivity. }
  unfold bind at 1. unfold bind at 1.
  assert (Hget : getNode n (with_nodes ns wB) = Done (decremented q) (with_nodes ns wB))
    by (apply getNode_Done; exact Hqn).
  rewrite Hget.
  assert (Hstep : (if (count (decremented q) =? 0)%Z
                      && Nat.eqb (length (deferredEntities (decremented q))) 0
                   then modNode n (node_set_entityCollection None)
                   else ret tt) (with_nodes ns wB)
                  = Done tt (with_nodes (alter emptiedNode n ns) wB)).
  { destruct ((count (decremented q) =? 0)%Z
              && Nat.eqb (length (deferredEntities (decremented q))) 0) eqn:Hcond.
    - assert (Hq' : nodes (with_nodes ns wB) !! n = Some (decremented q))
        by exact Hqn.
      rewrite (modNode_Done _ _ _ _ Hq'). cbn [nodes with_nodes].
      assert (Ha : alter (node_set_entityCollection None) n ns
                   = alter emptiedNode n ns).
      { apply list_alter_ext; [|reflexivity].
        intros q' Hq''. rewrite Hqn in Hq''. injection Hq'' as <-.
        unfold emptiedNode. rewrite Hcond. reflexivity. }
      rewrite Ha. reflexivity.
    - assert (Ha : alter emptiedNode n ns = ns).
      { apply list_eq. intros m.
        destruct (decide (m = n)) as [->|Hne].
        + rewrite list_lookup_alter_eq, Hqn. cbn.
          unfold emptiedNode. rewrite Hcond. reflexivity.
        + rewrite list_lookup_alter_ne by congruence. reflexivity. }
      rewrite Ha. reflexivity. }
  rewrite Hstep.
  (* the back-reference and the event *)
  match goal with |- context [bind _ _ ?W] => set (wC := W) end.
  assert (HEC : ents wC !! E = Some (set_entityCollection None (released e)))
    by exact HEB.
  unfold bind at 1. rewrite (getEntity_Done _ _ _ HEC).
  cbn [released _nodePtr set_vectorLayerIndex set_vectorLayer
       set_entityCollection].
  rewrite Hn. cbn [truthy].
  rewrite (modEntity_Done _ _ _ _ HEC).
  eexists. split; [reflexivity|].
  cbn [nodes colls ents dispatched with_dispatched with_ents with_nodes
       with_colls wC wB wA].
  split; [reflexivity|]. split.
  { intros m. apply decAll_lookup. exact Hnd. }
  split.
  { rewrite Hcolls, list_lookup_alter_eq, Hec. reflexivity. }
  split.
  { rewrite !list_lookup_alter_eq, HER. split; reflexivity. }
  rewrite Hd. reflexivity.
Qed.

Example removeEntity_from_collection_witness :
  chain (nodes nestedWorld) (Some 3%nat) [3; 1]%nat /\
  exists w',
    removeEntity 0 nestedWorld = Done tt w' /\
    count <$> nodes w' !! 3%nat = Some 0%Z /\
    count <$> nodes w' !! 1%nat = Some 0%Z /\
    entityCollection <$> nodes w' !! 3%nat = Some None /\
    ec_entities <$> colls w' !! 1%nat = Some [].
Proof.
  assert (Hch : chain (nodes nestedWorld) (Some 3%nat) [3; 1]%nat).
  { eapply chain_up; [vm_compute; reflexivity|].
    eapply chain_up; [vm_compute; reflexivity|]. constructor. }
  split; [exact Hch|].
  assert (Hidx : indexed nestedWorld).
  { intros i r Hr. vm_compute in Hr.
    destruct i as [|i]; [|destruct i; discriminate].
    injection Hr as <-. eexists. vm_compute. repeat split. }
  destruct (removeEntity_from_collection 0 0 _ 1 3 [3; 1]%nat nestedWorld
              Hidx eq_refl eq_refl eq_refl (ex_intro _ _ eq_refl) eq_refl Hch)
    as (w' & Hrun & Hnodes & _ & Hcoll & _).
  exists w'. split; [exact Hrun|].
  rewrite Hnodes, Hcoll. vm_compute. repeat split.
Defined.

(** ** Line entities *)

Section Lines.
Context `{C : Collaborators}.

(** X11: [add] on a line entity nobody owns, on any layer (attached or not)
    whose always-collection is in the store: the call returns; the entity
    is listed last, named as owned by the layer and by the always-collection,
    and appended to the always-collection; the extent, the roots, the nodes
    and the scheduler are untouched (no tree is called, whatever the
    collaborators are), and one entityadd event is dispatched. *)
Theorem add_line_bypasses_trees (E : eref) (e : Entity) (rightNow : bool)
    (ec : EntityCollection) (w : World) :
  ents w !! E = Some e -> unowned e -> lineString e = true ->
  colls w !! _entityCollectionAlways (this w) = Some ec ->
  exists w',
    add E rightNow w = Done tt w' /\
    this w' = set_entities (_entities (this w) ++ [E]) (this w) /\
    nodes w' = nodes w /\ timers w' = timers w /\
    counterTrace w' = counterTrace w /\
    colls w' !! _entityCollectionAlways (this w) =
      Some (mkEntityCollection (ec_entities ec ++ [E]) (ec_pickingEnabled ec)) /\
    ents w' !! E =
      Some (set_entityCollection (Some (_entityCollectionAlways (this w)))
              (set_vectorLayerIndex (Z.of_nat (length (_entities (this w))))
                 (set_vectorLayer (Some (_id (this w))) e))) /\
    dispatched w' = dispatched w ++ [(entityadd, E)].
Proof.
  intros HE Hun Hline Hec.
  rewrite (add_unowned E e rightNow w HE Hun), Hline.
  pose proof (taken_lookup E e w HE) as HE1.
  unfold EntityCollection_add.
  assert (Hec1 : colls (taken E w) !! _entityCollectionAlways (this w) = Some ec)
    by exact Hec.
  unfold bind at 1. unfold bind at 1.
  rewrite (modColl_Done _ _ _ _ Hec1).
  erewrite modEntity_Done; [|cbn [ents with_colls]; exact HE1].
  eexists. split; [reflexivity|].
  cbn [this with_dispatched with_ents with_colls taken with_this
       dispatched ents colls nodes timers counterTrace].
  repeat split.
  - rewrite list_lookup_alter_eq, Hec. reflexivity.
  - rewrite !list_lookup_alter_eq, HE. reflexivity.
Qed.

End Lines.

Example add_line_bypasses_trees_witness :
  ents (attachedLayer [lineEntity 7]) !! 0%nat = Some (lineEntity 7) /\
  exists w',
    @add sampleCollaborators 0 false (attachedLayer [lineEntity 7]) = Done tt w' /\
    nodes w' = nodes (attachedLayer [lineEntity 7]) /\
    ec_entities <$> colls w' !! 0%nat = Some [0%nat].
Proof.
  split; [reflexivity|].
  destruct (add_line_bypasses_trees (C := sampleCollaborators) 0 (lineEntity 7)
              false (mkEntityCollection [] true) (attachedLayer [lineEntity 7]))
    as (w' & Hrun & _ & Hn & _ & _ & Hc & _).
  - reflexivity.
  - split; reflexivity.
  - reflexivity.
  - reflexivity.
  - exists w'. split; [exact Hrun|]. split; [exact Hn|].
    change (_entityCollectionAlways (this (attachedLayer [lineEntity 7])))
      with 0%nat in Hc.
    rewrite Hc. reflexivity.
Defined.

(** ** Removing several entities *)

Lemma filter_all (P : eref -> Prop) `{!forall x, Decision (P x)} (l : list eref) :
  (forall x, x ∈ l -> P x) -> filter P l = l.
Proof.
  induction l as [|x l IH]; intros HP; [reflexivity|].
  rewrite filter_cons_True by (apply HP; apply list_elem_of_here).
  f_equal. apply IH. intros y Hy. apply HP. apply list_elem_of_further. exact Hy.
Qed.

Lemma delete_as_filter (l : list eref) :
  forall (k : nat) (r : eref),
    NoDup l -> l !! k = Some r -> delete k l = filter (fun x => x <> r) l.
Proof.
  induction l as [|x l IH]; intros k r Hnd Hk; [discriminate|].
  apply NoDup_cons in Hnd as [Hx Hnd]. destruct k as [|k].
  - injection Hk as ->. cbn [delete list_delete].
    rewrite filter_cons_False by (intros H; apply H; reflexivity).
    symmetry. apply filter_all. intros y Hy ->. contradiction.
  - cbn in Hk. cbn [delete list_delete].
    assert (Hne : x <> r).
    { intros ->. apply Hx. eapply list_elem_of_lookup_2. exact Hk. }
    rewrite filter_cons_True by exact Hne.
    f_equal. apply IH; assumption.
Qed.

(** [removeEntity] on a listed entity that has no collection and no node. *)
Lemma removeEntity_plain (E : eref) (i : nat) (e : Entity) (w : World) :
  indexed w ->
  _entities (this w) !! i = Some E ->
  ents w !! E = Some e -> links e = (None, None) ->
  exists w',
    removeEntity E w = Done tt w' /\
    _entities (this w') = delete i (_entities (this w)) /\
    indexed w' /\
    dispatched w' = dispatched w ++ [(entityremove, E)] /\
    nodes w' = nodes w /\ colls w' = colls w /\
    (forall r, links <$> ents w' !! r = links <$> ents w !! r).
Proof.
  intros Hidx HiE HE Hlinks. injection Hlinks as Hc Hn.
  destruct (removeEntity_unlisted E i e w Hidx HiE HE)
    as (wR & Hrun & Ht & Hnodes & Hcolls & Hd & HER & HidxR & Hl).
  rewrite Hrun. unfold removeEntity_rest, bind.
  rewrite (getEntity_Done _ _ _ HER).
  cbn [released _entityCollection _nodePtr set_vectorLayerIndex set_vectorLayer].
  rewrite Hc, Hn. cbn [ret truthy].
  rewrite (getEntity_Done _ _ _ HER).
  cbn [released _entityCollection _nodePtr set_vectorLayerIndex set_vectorLayer].
  rewrite Hn. cbn [ret truthy].
  eexists. split; [reflexivity|].
  cbn [this with_dispatched dispatched nodes colls ents].
  rewrite Ht, Hd, Hnodes, Hcolls.
  split; [reflexivity|]. split; [exact HidxR|]. repeat split. exact Hl.
Qed.

Lemma removeEntities_loop_plain (L : list eref) :
  NoDup L ->
  forall (i : nat) (w : World),
    i <= length L -> indexed w ->
    (forall j r, L !! j = Some r -> j < i ->
       r ∈ _entities (this w) /\
       links <$> ents w !! r = Some (None, None)) ->
    exists w',
      removeEntities_loop i L w = Done tt w' /\
      _entities (this w') =
        filter (fun r => r ∉ take i L) (_entities (this w)) /\
      indexed w' /\
      dispatched w' =
        dispatched w ++ ((fun r => (entityremove, r)) <$> rev (take i L)).
Proof.
  intros HndL. induction i as [|j IH]; intros w Hi Hidx Hplain.
  - exists w. cbn [removeEntities_loop take rev fmap list_fmap].
    rewrite app_nil_r. split; [reflexivity|]. split; [|split; [exact Hidx|reflexivity]].
    symmetry. apply filter_all. intros x _ Hx. apply elem_of_nil in Hx. exact Hx.
  - destruct (lookup_lt_is_Some_2 L j) as [r Hr]; [lia|].
    destruct (Hplain j r Hr) as (Hin & Hlk); [lia|].
    apply list_elem_of_lookup in Hin as [k Hk].
    destruct (ents w !! r) as [e|] eqn:He; [|discriminate].
    assert (Hlk' : links e = (None, None)) by (cbn in Hlk; congruence).
    clear Hlk. rename Hlk' into Hlk.
    cbn [removeEntities_loop]. rewrite Hr.
    destruct (removeEntity_plain r k e w Hidx Hk He Hlk)
      as (w1 & Hrun & Hl1 & Hidx1 & Hd1 & _ & _ & Hlinks1).
    rewrite (bind_Done _ _ _ _ _ Hrun).
    pose proof (indexed_NoDup w Hidx) as Hnd.
    rewrite (delete_as_filter _ k r Hnd Hk) in Hl1.
    destruct (IH w1) as (w' & Hrun' & Hl' & Hidx' & Hd').
    + lia.
    + exact Hidx1.
    + intros j' r' Hr' Hj'.
      destruct (Hplain j' r' Hr') as (Hin' & Hlk'); [lia|].
      split; [|rewrite Hlinks1; exact Hlk'].
      rewrite Hl1. apply list_elem_of_filter. split; [|exact Hin'].
      intros ->. pose proof (proj1 (NoDup_alt L) HndL _ _ _ Hr Hr'). lia.
    + exists w'. split; [exact Hrun'|].
      rewrite (take_S_r L j r Hr), rev_app_distr. cbn [rev app].
      split; [|split; [exact Hidx'|]].
      * rewrite Hl', Hl1, list_filter_filter.
        apply list_filter_iff. intros x. rewrite not_elem_of_app.
        rewrite not_elem_of_cons. split.
        -- intros [H1 H2]. split; [exact H1|]. split; [exact H2|].
           intros H. apply elem_of_nil in H. exact H.
        -- intros (H1 & H2 & _). split; assumption.
      * rewrite Hd', Hd1. cbn [fmap list_fmap]. rewrite <- app_assoc.
        reflexivity.
Qed.

(** X12: [removeEntities] on a flat list whose stored indices are right, for
    an array of its own (not the flat list itself) of distinct listed
    entities without collection and node: the call returns,
    the entities are removed from the last to the first, the flat list keeps
    exactly the entities not given, in their order, with their stored
    indices right, and the entityremove events are dispatched in reversed
    order. *)
Theorem removeEntities_plain (L : list eref) (w : World) :
  NoDup L -> indexed w ->
  (forall r, r ∈ L ->
     r ∈ _entities (this w) /\ links <$> ents w !! r = Some (None, None)) ->
  exists w',
    removeEntities L w = Done tt w' /\
    _entities (this w') = filter (fun r => r ∉ L) (_entities (this w)) /\
    indexed w' /\
    dispatched w' = dispatched w ++ ((fun r => (entityremove, r)) <$> rev L).
Proof.
  intros Hnd Hidx Hplain. unfold removeEntities.
  destruct (removeEntities_loop_plain L Hnd (length L) w)
    as (w' & Hrun & Hl & Hidx' & Hd); [lia|exact Hidx| |].
  - intros j r Hr _. apply Hplain. eapply list_elem_of_lookup_2. exact Hr.
  - rewrite firstn_all in Hl, Hd. exists w'. repeat split; assumption.
Qed.

Example removeEntities_plain_witness :
  indexed filledLayer /\
  exists w',
    removeEntities [0; 2]%nat filledLayer = Done tt w' /\
    _entities (this w') = [1%nat] /\
    indexed w'.
Proof.
  assert (Hidx : indexed filledLayer).
  { intros i r Hr. vm_compute in Hr.
    destruct i as [|[|[|i]]]; try discriminate;
      injection Hr as <-; eexists; vm_compute; repeat split. }
  split; [exact Hidx|].
  assert (Hnd : NoDup [0; 2]%nat).
  { apply NoDup_cons. split; [|apply NoDup_singleton].
    intros H. apply list_elem_of_singleton in H. discriminate. }
  destruct (removeEntities_plain [0; 2]%nat filledLayer Hnd Hidx)
    as (w' & Hrun & Hl & Hidx' & _).
  - intros r Hr. apply elem_of_cons in Hr as [->|Hr].
    + split; [vm_compute; apply list_elem_of_here|reflexivity].
    + apply list_elem_of_singleton in Hr as ->.
      split; [vm_compute; do 2 apply list_elem_of_further; apply list_elem_of_here
             |reflexivity].
  - exists w'. split; [exact Hrun|]. split; [|exact Hidx'].
    rewrite Hl. reflexivity.
Defined.

(** ** Renumbering the flat list *)

Lemma reindexEntitiesArray_run (s : Z) (w : World) :
  (0 <= s)%Z ->
  Forall (fun r => is_Some (ents w !! r))
         (drop (Z.to_nat s) (_entities (this w))) ->
  _reindexEntitiesArray s w =
    Done tt (with_ents (reindexed s (drop (Z.to_nat s) (_entities (this w)))
                                  (ents w)) w).
Proof.
  intros Hs Hlive. unfold _reindexEntitiesArray, bind, getThis.
  destruct (Z.ltb_spec s 0) as [Hneg|_]; [lia|].
  exact (reindexFrom_Done _ _ w Hlive).
Qed.

Lemma reindexed_same (rs : list eref) :
  forall (i : Z) (h : list Entity),
    (forall k r, rs !! k = Some r ->
       exists e, h !! r = Some e /\ _vectorLayerIndex e = (i + Z.of_nat k)%Z) ->
    reindexed i rs h = h.
Proof.
  induction rs as [|r0 rs IH]; intros i h Hrs; cbn [reindexed]; [reflexivity|].
  assert (Hh : alter (set_vectorLayerIndex i) r0 h = h).
  { destruct (Hrs 0%nat r0 eq_refl) as (e & He & Hx).
    apply list_eq. intros j. rewrite list_lookup_alter.
    destruct (decide (r0 = j)) as [<-|]; [|reflexivity].
    rewrite He. cbn. f_equal. replace i with (_vectorLayerIndex e) by lia.
    destruct e. reflexivity. }
  rewrite Hh. apply IH. intros k r Hk.
  destruct (Hrs (S k) r Hk) as (e & He & Hx). exists e. split; [exact He|]. lia.
Qed.

(** X13: [_reindexEntitiesArray] from a start index that is not negative, on
    a flat list without repetition whose entities from the start index on
    exist: the call returns; the entity at a position [k] from the start
    index on stores [k] and is otherwise as before; the entities in front
    of the start index and the entities not in the list are as before; the
    layer, the nodes, the collections and the dispatched events are as
    before. *)
Theorem reindexEntitiesArray_renumbers (s : Z) (w : World) :
  (0 <= s)%Z ->
  NoDup (_entities (this w)) ->
  Forall (fun r => is_Some (ents w !! r))
         (drop (Z.to_nat s) (_entities (this w))) ->
  exists w',
    _reindexEntitiesArray s w = Done tt w' /\
    this w' = this w /\ nodes w' = nodes w /\ colls w' = colls w /\
    dispatched w' = dispatched w /\
    (forall k r, _entities (this w) !! k = Some r -> Z.to_nat s <= k ->
       ents w' !! r = set_vectorLayerIndex (Z.of_nat k) <$> ents w !! r) /\
    (forall k r, _entities (this w) !! k = Some r -> k < Z.to_nat s ->
       ents w' !! r = ents w !! r) /\
    (forall r, r ∉ _entities (this w) -> ents w' !! r = ents w !! r).
Proof.
  intros Hs Hnd Hlive.
  rewrite (reindexEntitiesArray_run s w Hs Hlive).
  set (l := _entities (this w)) in *. set (n := Z.to_nat s) in *.
  eexists. split; [reflexivity|]. cbn [this nodes colls dispatched ents with_ents].
  do 4 (split; [reflexivity|]).
  split; [|split].
  - intros k r Hk Hge.
    rewrite (reindexed_at _ _ _ (k - n) r).
    + replace (s + Z.of_nat (k - n))%Z with (Z.of_nat k) by lia. reflexivity.
    + exact (sublist_NoDup _ _ Hnd (sublist_drop l n)).
    + rewrite lookup_drop. replace (n + (k - n)) with k by lia. exact Hk.
  - intros k r Hk Hlt. apply reindexed_other.
    intros Hin. apply list_elem_of_lookup in Hin as [j Hj].
    rewrite lookup_drop in Hj.
    pose proof (proj1 (NoDup_alt l) Hnd _ _ _ Hk Hj). lia.
  - intros r Hr. apply reindexed_other.
    intros Hin. apply Hr. apply list_elem_of_lookup in Hin as [j Hj].
    rewrite lookup_drop in Hj. eapply list_elem_of_lookup_2. exact Hj.
Qed.

Example reindexEntitiesArray_renumbers_witness :
  exists w',
    _reindexEntitiesArray 1 filledLayer = Done tt w' /\
    this w' = this filledLayer.
Proof.
  assert (Hnd : NoDup (_entities (this filledLayer))).
  { vm_compute. repeat (apply NoDup_cons; split;
      [intros H; repeat (apply elem_of_cons in H as [H|H]; [discriminate|]);
       apply elem_of_nil in H; exact H|]).
    apply NoDup_nil. exact I. }
  assert (Hlive : Forall (fun r => is_Some (ents filledLayer !! r))
                    (drop (Z.to_nat 1) (_entities (this filledLayer)))).
  { vm_compute. repeat constructor; eexists; reflexivity. }
  destruct (reindexEntitiesArray_renumbers 1 filledLayer ltac:(lia) Hnd Hlive)
    as (w' & Hrun & Ht & _).
  exists w'. split; [exact Hrun|exact Ht].
Defined.

(** X14: on a flat list whose stored indices are right,
    [_reindexEntitiesArray] from any start index that is not negative
    returns and changes nothing. *)
Theorem reindexEntitiesArray_indexed_unchanged (s : Z) (w : World) :
  (0 <= s)%Z -> indexed w -> _reindexEntitiesArray s w = Done tt w.
Proof.
  intros Hs Hidx.
  rewrite (reindexEntitiesArray_run s w Hs).
  - rewrite reindexed_same; [destruct w; reflexivity|].
    intros k r Hk. rewrite lookup_drop in Hk.
    destruct (Hidx _ r Hk) as (e & He & _ & Hx).
    exists e. split; [exact He|]. lia.
  - apply Forall_forall. intros r Hr.
    apply list_elem_of_lookup in Hr as [k Hk]. rewrite lookup_drop in Hk.
    destruct (Hidx _ r Hk) as (e & He & _). eauto.
Qed.

Example reindexEntitiesArray_indexed_unchanged_witness :
  _reindexEntitiesArray 1 filledLayer = Done tt filledLayer.
Proof.
  apply (reindexEntitiesArray_indexed_unchanged 1 filledLayer); [lia|].
  intros i r Hr. vm_compute in Hr.
  destruct i as [|[|[|i]]]; try discriminate;
    injection Hr as <-; eexists; vm_compute; repeat split.
Defined.

(** ** Queueing on a visible layer *)

(** X15: on a visible layer, [_queueDeferredNode(N)] for an existing node
    returns and marks the node as queued in either case.  With a build in
    flight the node is pushed on the backlog, and the counter and the timers
    stay; with none in flight the node is started at once: the counter is
    raised by one and a timer for the node is set, the backlog stays, and
    the node keeps its queued mark although it is not on the backlog. *)
Theorem queueDeferredNode_visible_layer (N : nref) (q : QuadNode) (w : World) :
  _visibility (this w) = true ->
  nodes w !! N = Some q ->
  exists w',
    _queueDeferredNode N w = Done tt w' /\
    nodes w' = alter (node_set_inTheQueue true) N (nodes w) /\
    ents w' = ents w /\ colls w' = colls w /\ dispatched w' = dispatched w /\
    ((1 <= _counter (this w))%Z ->
       this w' = set_pendingQueue
                   (N :: _deferredEntitiesPendingQueue (this w)) (this w) /\
       timers w' = timers w /\ counterTrace w' = counterTrace w) /\
    ((_counter (this w) < 1)%Z ->
       this w' = set_counter (_counter (this w) + 1) (this w) /\
       timers w' = timers w ++ [N] /\
       counterTrace w' = counterTrace w ++ [(_counter (this w) + 1)%Z]).
Proof.
  intros Hvis HN. unfold _queueDeferredNode.
  unfold bind at 1. unfold getThis at 1. rewrite Hvis.
  rewrite (bind_Done _ _ _ _ _ (modNode_Done _ _ _ _ HN)).
  destruct (Z.geb_spec (_counter (this w)) 1) as [Hge|Hlt].
  - eexists. split; [reflexivity|].
    cbn [nodes ents colls dispatched this timers counterTrace
         with_this with_nodes].
    do 4 (split; [reflexivity|]).
    split; [intros _; repeat split|intros Hlt; lia].
  - eexists. split; [reflexivity|].
    cbn [nodes ents colls dispatched this timers counterTrace
         with_this with_nodes with_timers with_counterTrace].
    do 4 (split; [reflexivity|]).
    split; [intros Hge; lia|intros _; repeat split].
Qed.

Example queueDeferredNode_visible_layer_witness :
  exists w',
    _queueDeferredNode 1 backlogWorld = Done tt w' /\
    timers w' = [1%nat] /\ _counter (this w') = 1%Z /\
    _deferredEntitiesPendingQueue (this w') = [2; 1; 0]%nat.
Proof.
  assert (Hq : exists q, nodes backlogWorld !! 1%nat = Some q)
    by (eexists; vm_compute; reflexivity).
  destruct Hq as [q Hq].
  destruct (queueDeferredNode_visible_layer 1 q backlogWorld eq_refl Hq)
    as (w' & Hrun & _ & _ & _ & _ & _ & Hidle).
  destruct Hidle as (Ht & Htm & _); [vm_compute; reflexivity|].
  exists w'. split; [exact Hrun|]. rewrite Ht, Htm. repeat split.
Defined.

Section QueueWhileBusy.
Context `{C : Collaborators}.

(** X16: with one build in flight on a visible layer, queueing an existing
    node that is visible and then running [_dequeueRequest] (as the timer
    callback of the build in flight does) starts that node and no older
    entry: the counter is 1 again, one timer for the node is added, the
    backlog is as it was before the node was queued, and the node's queued
    mark is cleared again while every other node is as before. *)
Theorem queue_then_dequeue_starts_newest (N : nref) (q : QuadNode) (w : World) :
  _visibility (this w) = true ->
  _counter (this w) = 1%Z ->
  nodes w !! N = Some q ->
  isVisible (scene_of (this w)) N = true ->
  exists w',
    (_queueDeferredNode N ;;; _dequeueRequest) w = Done tt w' /\
    _counter (this w') = 1%Z /\
    timers w' = timers w ++ [N] /\
    _deferredEntitiesPendingQueue (this w') =
      _deferredEntitiesPendingQueue (this w) /\
    nodes w' !! N = Some (node_set_inTheQueue false q) /\
    (forall m, m <> N -> nodes w' !! m = nodes w !! m).
Proof.
  intros Hvis Hc HN HvN.
  set (q0 := _deferredEntitiesPendingQueue (this w)).
  set (w1 := with_this (set_pendingQueue (N :: q0) (this w))
               (with_nodes (alter (node_set_inTheQueue true) N (nodes w)) w)).
  assert (Hrun1 : _queueDeferredNode N w = Done tt w1).
  { unfold _queueDeferredNode. unfold bind at 1. unfold getThis at 1.
    rewrite Hvis, Hc.
    rewrite (bind_Done _ _ _ _ _ (modNode_Done _ _ _ _ HN)). reflexivity. }
  rewrite (bind_Done _ _ _ _ _ Hrun1).
  set (w2 := with_counterTrace (counterTrace w1 ++ [(_counter (this w1) - 1)%Z])
               (with_this (set_counter (_counter (this w1) - 1) (this w1)) w1)).
  assert (Hrun2 : assignCounter (_counter (this w1) - 1) w1 = Done tt w2)
    by reflexivity.
  assert (Hq2 : _deferredEntitiesPendingQueue (this w2) = [] ++ N :: q0)
    by reflexivity.
  assert (Hc2 : (_counter (this w2) <? 1)%Z = true).
  { cbn. rewrite Hc. reflexivity. }
  assert (Hfound : _whilePendings w2 = Done (Some N) (drained ([] ++ [N]) q0 w2)).
  { unfold _whilePendings, bind, getThis. rewrite Hq2.
    apply whilePendings_loop_found.
    - exact Hq2.
    - repeat constructor. unfold live. cbn [w2 w1 nodes with_counterTrace
        with_this with_nodes]. rewrite list_lookup_alter_eq, HN. eauto.
    - constructor.
    - exact HvN. }
  unfold _dequeueRequest. unfold bind at 1. unfold getThis at 1.
  rewrite (bind_Done _ _ _ _ _ Hrun2).
  unfold bind at 1. unfold getThis at 1.
  rewrite Hc2, Hq2. cbn [app length Nat.eqb negb andb].
  rewrite (bind_Done _ _ _ _ _ Hfound).
  eexists. split; [reflexivity|]. cbn. rewrite Hc.
  split; [reflexivity|]. split; [reflexivity|]. split; [reflexivity|].
  split.
  - rewrite !list_lookup_alter_eq, HN. reflexivity.
  - intros m Hm. rewrite !list_lookup_alter_ne by congruence. reflexivity.
Qed.

End QueueWhileBusy.

Example queue_then_dequeue_starts_newest_witness :
  exists w',
    (_queueDeferredNode 1 ;;; @_dequeueRequest sampleCollaborators)
      (with_this (set_counter 1 (this backlogWorld)) backlogWorld)
      = Done tt w' /\
    timers w' = [1%nat] /\
    _deferredEntitiesPendingQueue (this w') = [2; 1; 0]%nat.
Proof.
  assert (Hq : exists q,
             nodes (with_this (set_counter 1 (this backlogWorld)) backlogWorld)
               !! 1%nat = Some q)
    by (eexists; vm_compute; reflexivity).
  destruct Hq as [q Hq].
  destruct (queue_then_dequeue_starts_newest (C := sampleCollaborators) 1 q
              (with_this (set_counter 1 (this backlogWorld)) backlogWorld)
              eq_refl eq_refl Hq eq_refl)
    as (w' & Hrun & _ & Ht & Hb & _).
  exists w'. split; [exact Hrun|]. split; [exact Ht|exact Hb].
Defined.

(** ** The safe loop over the entities *)

Lemma each_loop_removeEntity (i : nat) :
  forall (w : World),
    indexed w ->
    length (_entities (this w)) = i ->
    (forall r, r ∈ _entities (this w) ->
       links <$> ents w !! r = Some (None, None)) ->
    exists w',
      each_loop removeEntity_callback i w = Done tt w' /\
      _entities (this w') = [] /\
      dispatched w' =
        dispatched w ++
        ((fun r => (entityremove, r)) <$> rev (_entities (this w))).
Proof.
  induction i as [|j IH]; intros w Hidx Hlen Hplain.
  - apply nil_length_inv in Hlen. exists w. rewrite Hlen.
    cbn [each_loop rev fmap list_fmap]. rewrite app_nil_r.
    repeat split.
  - set (l := _entities (this w)) in *.
    destruct (lookup_lt_is_Some_2 l j) as [r Hr]; [lia|].
    assert (Hl : l = take j l ++ [r]).
    { rewrite <- (take_S_r l j r Hr). symmetry. apply take_ge. lia. }
    assert (Hin : r ∈ l) by (eapply list_elem_of_lookup_2; exact Hr).
    pose proof (Hplain r Hin) as Hlk.
    destruct (ents w !! r) as [e|] eqn:He; [|discriminate].
    assert (Hlk' : links e = (None, None)) by (cbn in Hlk; congruence).
    destruct (removeEntity_plain r j e w Hidx Hr He Hlk')
      as (w1 & Hrun & Hl1 & Hidx1 & Hd1 & _ & _ & Hlinks1).
    fold l in Hl1.
    assert (Hdel : delete j l = take j l).
    { assert (Hj : j = length (take j l)) by (rewrite length_take; lia).
      rewrite Hl at 1. rewrite Hj at 1.
      rewrite delete_middle. apply app_nil_r. }
    rewrite Hdel in Hl1.
    destruct (IH w1 Hidx1) as (w' & Hrun' & Hl' & Hd').
    + rewrite Hl1, length_take. lia.
    + intros r' Hr'. rewrite Hlinks1. apply Hplain.
      rewrite Hl1 in Hr'. fold l. rewrite Hl.
      apply elem_of_app. left. exact Hr'.
    + exists w'. cbn [each_loop]. unfold bind at 1. unfold getThis at 1.
      fold l. rewrite Hr. cbn [removeEntity_callback].
      rewrite (bind_Done _ _ _ _ _ Hrun).
      split; [exact Hrun'|]. split; [exact Hl'|].
      rewrite Hd', Hd1, Hl1. rewrite Hl at 2.
      rewrite rev_app_distr. cbn [rev app fmap list_fmap].
      rewrite <- app_assoc. reflexivity.
Qed.

(** X17: [each] with the callback [removeEntity], on a flat list whose
    stored indices are right and whose entities have no collection and no
    node: the loop returns, visiting the entities from the last to the
    first although the list shrinks under it; the flat list is empty
    afterwards and one entityremove event per entity was dispatched, in
    reversed order. *)
Theorem each_removeEntity_empties (w : World) :
  indexed w ->
  (forall r, r ∈ _entities (this w) ->
     links <$> ents w !! r = Some (None, None)) ->
  exists w',
    each_with removeEntity_callback w = Done tt w' /\
    _entities (this w') = [] /\
    dispatched w' =
      dispatched w ++
      ((fun r => (entityremove, r)) <$> rev (_entities (this w))).
Proof.
  intros Hidx Hplain. unfold each_with, bind, getThis.
  destruct (each_loop_removeEntity (length (_entities (this w))) w
              Hidx eq_refl Hplain) as (w' & Hrun & Hl & Hd).
  exists w'. repeat split; assumption.
Qed.

Example each_removeEntity_empties_witness :
  exists w',
    each_with removeEntity_callback filledLayer = Done tt w' /\
    _entities (this w') = [].
Proof.
  assert (Hidx : indexed filledLayer).
  { intros i r Hr. vm_compute in Hr.
    destruct i as [|[|[|i]]]; try discriminate;
      injection Hr as <-; eexists; vm_compute; repeat split. }
  destruct (each_removeEntity_empties filledLayer Hidx) as (w' & Hrun & Hl & _).
  - intros r Hr. vm_compute in Hr.
    repeat (apply elem_of_cons in Hr as [->|Hr]; [reflexivity|]).
    apply elem_of_nil in Hr. contradiction.
  - exists w'. split; [exact Hrun|exact Hl].
Defined.
